(** * Conda manifests: a shallow embedding of [packagedcode/conda.py]

    The development follows the Python module function by function:
    - [Py]: the string and dict primitives of Python the module relies on
      ([str.partition], [str.split], [str.replace], [str.strip], ...);
    - [get_variables] and [get_meta_yaml_data]: the crude Jinja resolution
      applied to a [meta.yaml] before it is loaded as YAML;
    - [CondaMetaYamlHandler]: the loop over the scoped [requirements];
    - [get_conda_yaml_dependencies]: the flat [dependencies] list of an
      environment file.

    Python [str] values are lists of characters.  Exceptions are explicit:
    a computation that can raise returns a [result].  The embedding is
    followed by the vocabulary of the statements, the facts about the
    primitives and the loops, and the properties of the specification,
    named after the claims they settle. *)

From Stdlib Require Import List Ascii String Bool Arith Lia.
Import ListNotations.

Set Implicit Arguments.

(** ** Python primitives *)

Module Py.

Definition pystr := list ascii.

(** A string literal as a Python string. *)
Definition str (s : string) : pystr := list_ascii_of_string s.

Fixpoint str_eqb (a b : pystr) : bool :=
  match a, b with
  | [], [] => true
  | c :: a', d :: b' => Ascii.eqb c d && str_eqb a' b'
  | _, _ => false
  end.

Definition mem_char (c : ascii) (chars : pystr) : bool :=
  existsb (Ascii.eqb c) chars.

(** [s.startswith(p)] *)
Fixpoint startswith (p s : pystr) : bool :=
  match p, s with
  | [], _ => true
  | c :: p', d :: s' => Ascii.eqb c d && startswith p' s'
  | _ :: _, [] => false
  end.

(** [s.endswith(p)] *)
Definition endswith (p s : pystr) : bool := startswith (rev p) (rev s).

(** [sub in s] *)
Fixpoint contains (sub s : pystr) : bool :=
  startswith sub s ||
  match s with
  | [] => false
  | _ :: s' => contains sub s'
  end.

(** [s.replace(old, new)] for a non-empty [old]: the occurrences of [old]
    are found from the left and do not overlap.  [skip] counts the
    characters of a match that are still to be consumed.  (With an empty
    [old] Python inserts [new] between the characters; the module never
    calls [replace] so, and the model returns [s].) *)
Fixpoint replace_from (old new : pystr) (skip : nat) (s : pystr) : pystr :=
  match s with
  | [] => []
  | c :: s' =>
      match skip with
      | S k => replace_from old new k s'
      | O =>
          if startswith old s
          then new ++ replace_from old new (List.length old - 1) s'
          else c :: replace_from old new 0 s'
      end
  end.

Definition replace (old new s : pystr) : pystr :=
  match old with
  | [] => s
  | _ :: _ => replace_from old new 0 s
  end.

(** [s.split(sep)] for a non-empty [sep]; [cur] is the part being read,
    in reverse. *)
Fixpoint split_from (sep : pystr) (skip : nat) (cur : pystr) (s : pystr)
  : list pystr :=
  match s with
  | [] => [rev cur]
  | c :: s' =>
      match skip with
      | S k => split_from sep k cur s'
      | O =>
          if startswith sep s
          then rev cur :: split_from sep (List.length sep - 1) [] s'
          else split_from sep 0 (c :: cur) s'
      end
  end.

Definition split (sep s : pystr) : list pystr := split_from sep 0 [] s.

(** The first occurrence of [sep] in [s]: the text before it and the text
    after it. *)
Fixpoint find_split (sep s : pystr) : option (pystr * pystr) :=
  if startswith sep s then Some ([], skipn (List.length sep) s)
  else
    match s with
    | [] => None
    | c :: s' =>
        match find_split sep s' with
        | Some (a, b) => Some (c :: a, b)
        | None => None
        end
    end.

(** [s.partition(sep)] *)
Definition partition (sep s : pystr) : pystr * pystr * pystr :=
  match find_split sep s with
  | Some (a, b) => (a, sep, b)
  | None => (s, [], [])
  end.

(** [s.lstrip(chars)], [s.rstrip(chars)], [s.strip(chars)]: [chars] is a
    set of characters, not a prefix. *)
Fixpoint lstrip_chars (chars s : pystr) : pystr :=
  match s with
  | [] => []
  | c :: s' => if mem_char c chars then lstrip_chars chars s' else s
  end.

Definition rstrip_chars (chars s : pystr) : pystr :=
  rev (lstrip_chars chars (rev s)).

Definition strip_chars (chars s : pystr) : pystr :=
  rstrip_chars chars (lstrip_chars chars s).

(** The ASCII characters for which [str.isspace] holds. *)
Definition whitespace : pystr :=
  map ascii_of_nat [9; 10; 11; 12; 13; 28; 29; 30; 31; 32].

Definition lstrip (s : pystr) : pystr := lstrip_chars whitespace s.
Definition strip (s : pystr) : pystr := strip_chars whitespace s.

(** [s.lower()] on ASCII letters. *)
Definition lower_char (c : ascii) : ascii :=
  let n := nat_of_ascii c in
  if (65 <=? n) && (n <=? 90) then ascii_of_nat (n + 32) else c.

Definition lower (s : pystr) : pystr := map lower_char s.

Definition newline : ascii := ascii_of_nat 10.

(** The double quote. *)
Definition dquote : ascii := ascii_of_nat 34.

(** The lines of a text file as iterating over it gives them: each line
    keeps its final newline; [cur] is the line being read, in reverse.
    The text is the content as [io.open] hands it over, line ends
    translated to newlines. *)
Fixpoint lines_from (cur : pystr) (s : pystr) : list pystr :=
  match s with
  | [] => match cur with [] => [] | _ :: _ => [rev cur] end
  | c :: s' =>
      if Ascii.eqb c newline
      then rev (c :: cur) :: lines_from [] s'
      else lines_from (c :: cur) s'
  end.

Definition readlines (text : pystr) : list pystr := lines_from [] text.

(** [''.join(lines)] *)
Definition join (lines : list pystr) : pystr := List.concat lines.

(** A [dict] with string keys, in insertion order.  Assigning to a key
    that is present keeps its position. *)
Definition dict (V : Type) := list (pystr * V).

Fixpoint dict_get {V} (k : pystr) (d : dict V) : option V :=
  match d with
  | [] => None
  | (k', v) :: d' => if str_eqb k k' then Some v else dict_get k d'
  end.

Fixpoint dict_set {V} (k : pystr) (v : V) (d : dict V) : dict V :=
  match d with
  | [] => [(k, v)]
  | (k', v') :: d' =>
      if str_eqb k k' then (k, v) :: d' else (k', v') :: dict_set k v d'
  end.

Definition dict_keys {V} (d : dict V) : list pystr := map fst d.

(** Exceptions the module can raise by itself. *)
Inductive exn := ValueError | UnboundLocalError.

Inductive result (A : Type) :=
| Ok (a : A)
| Raise (e : exn).
Arguments Ok {A} a.
Arguments Raise {A} e.

Definition bind {A B} (m : result A) (f : A -> result B) : result B :=
  match m with
  | Ok a => f a
  | Raise e => Raise e
  end.

(** [a, b = parts]: unpacking into two names raises [ValueError] unless
    there are exactly two values. *)
Definition unpack2 (parts : list pystr) : result (pystr * pystr) :=
  match parts with
  | [a; b] => Ok (a, b)
  | _ => Raise ValueError
  end.

(** A local variable of a function: unbound until first assigned. *)
Inductive local (A : Type) :=
| Unbound
| Bound (a : A).
Arguments Unbound {A}.
Arguments Bound {A} a.

Definition read_local {A} (x : local A) : result A :=
  match x with
  | Bound a => Ok a
  | Unbound => Raise UnboundLocalError
  end.

End Py.

Import Py.

Notation "x <- m ;; f" := (bind m (fun x => f))
  (at level 61, m at next level, right associativity).
Notation "' p <- m ;; f" := (bind m (fun p => f))
  (at level 61, p pattern, m at next level, right associativity).

(** ** The data model of [packagedcode.models] the module fills in *)

(** The arguments [PackageURL] is built from.  The class belongs to the
    [packageurl] library: the identifier is kept as the record of the
    four components the module passes, as they are passed; what the
    library does with them (normalisation, [to_string]) is not part of
    the model. *)
Record PackageURL := mkPurl {
  purl_type : pystr;
  purl_namespace : option pystr;
  purl_name : pystr;
  purl_version : option pystr
}.

Record DependentPackage := mkDep {
  purl : PackageURL;
  extracted_requirement : option pystr;
  scope : pystr;
  is_runtime : bool;
  is_optional : bool;
  is_pinned : bool;
  is_direct : bool
}.

(** [name in ('pip', 'python')] *)
Definition is_reserved (name : pystr) : bool :=
  str_eqb name (str "pip") || str_eqb name (str "python").

(** ** [get_variables] *)

(** The test both [get_variables] and [get_meta_yaml_data] apply to a
    stripped line. *)
Definition is_declaration (pure_line : pystr) : bool :=
  startswith (str "{%") pure_line
  && endswith (str "%}") pure_line
  && contains (str "=") pure_line.

Definition get_variables_line (result : dict pystr) (line : pystr)
  : dict pystr :=
  match line with
  | [] => result
  | _ :: _ =>
      let line := strip line in
      if is_declaration line then
        let line :=
          lstrip (lstrip_chars (str "set")
            (strip (rstrip_chars (str "%}") (lstrip_chars (str "{%") line)))) in
        let parts := split (str "=") line in
        dict_set (strip (hd [] parts))
                 (strip_chars [dquote] (strip (last parts [])))
                 result
      else result
  end.

Definition get_variables (text : pystr) : dict pystr :=
  fold_left get_variables_line (readlines text) [].

(** ** [get_meta_yaml_data] *)

(** The body of [for variable, value in variables.items()]. *)
Definition substitute_variable (line : pystr) (kv : pystr * pystr) : pystr :=
  let (variable, value) := kv in
  if contains (str "|lower") line
  then replace (str "{{ " ++ variable ++ str "|lower" ++ str " }}")
               (lower value) line
  else replace (str "{{ " ++ variable ++ str " }}") value line.

(** [# Replace the variable with the value] *)
Definition substitute (variables : dict pystr) (line : pystr) : pystr :=
  if contains (str "{{") line && contains (str "}}") line
  then fold_left substitute_variable variables line
  else line.

(** The first loop: [yaml_lines]. *)
Fixpoint yaml_lines (variables : dict pystr) (lines : list pystr)
  : list pystr :=
  match lines with
  | [] => []
  | line :: rest =>
      match line with
      | [] => yaml_lines variables rest
      | _ :: _ =>
          if is_declaration (strip line)
          then yaml_lines variables rest
          else substitute variables line :: yaml_lines variables rest
      end
  end.

(** [cleaned_yaml_lines] *)
Definition cleaned_yaml_lines (lines : list pystr) : list pystr :=
  filter (fun line => negb (contains (str "{{") line)) lines.

(** The text handed to [saneyaml.load], for a given table of variables. *)
Definition resolve (variables : dict pystr) (text : pystr) : pystr :=
  join (cleaned_yaml_lines (yaml_lines variables (readlines text))).

(** [get_meta_yaml_data], up to the call of the YAML loader: the
    variables are those of the same file. *)
Definition get_meta_yaml_data (text : pystr) : pystr :=
  resolve (get_variables text) text.

(** ** [CondaMetaYamlHandler.parse]: the scoped requirements *)

Module CondaMetaYamlHandler.

Definition default_package_type : pystr := str "conda".

(** What the loop body knows about one requirement before it is filed. *)
Record requirement_fields := mkReq {
  req_name : pystr;
  req_namespace : option pystr;
  req_version : option pystr;
  req_is_pinned : bool;
  req_requirement : pystr
}.

Definition parse_requirement (req : pystr) : result requirement_fields :=
  let '(name, _, requirement) := partition (str " ") req in
  version <-
    (if startswith (str "==") requirement
     then '(_, version) <- unpack2 (split (str "==") requirement) ;;
          Ok (Some version)
     else Ok None) ;;
  '(namespace, name) <-
    (if contains (str "::") name
     then '(namespace, name) <- unpack2 (split (str "::") name) ;;
          Ok (Some namespace, name)
     else Ok (None, name)) ;;
  if contains (str "=") name
  then '(name, version) <- unpack2 (split (str "=") name) ;;
       Ok (mkReq name namespace (Some version) true (str "=" ++ version))
  else Ok (mkReq name namespace version false requirement).

Definition extra_data := dict (list pystr).

(** The state of the two loops: [dependencies] and [extra_data]. *)
Definition state := (list DependentPackage * extra_data)%type.

Definition make_dependency (scope : pystr) (f : requirement_fields)
  : DependentPackage :=
  let purl := mkPurl default_package_type (req_namespace f) (req_name f)
                     (req_version f) in
  let '(is_runtime, is_optional) :=
    if contains (str "run") scope then (true, false) else (false, true) in
  mkDep purl (Some (req_requirement f)) scope is_runtime is_optional
        (req_is_pinned f) true.

(** The body of [for req in reqs]. *)
Definition parse_req (scope : pystr) (st : state) (req : pystr)
  : result state :=
  let '(dependencies, extra) := st in
  f <- parse_requirement req ;;
  if is_reserved (req_name f)
  then
    match dict_get scope extra with
    | None => Ok (dependencies, dict_set scope [req] extra)
    | Some reqs => Ok (dependencies, dict_set scope (reqs ++ [req]) extra)
    end
  else Ok (dependencies ++ [make_dependency scope f], extra).

Fixpoint parse_reqs (scope : pystr) (st : state) (reqs : list pystr)
  : result state :=
  match reqs with
  | [] => Ok st
  | req :: rest => st' <- parse_req scope st req ;; parse_reqs scope st' rest
  end.

(** [for scope, reqs in requirements.items()] *)
Fixpoint parse_scopes (st : state) (requirements : dict (list pystr))
  : result state :=
  match requirements with
  | [] => Ok st
  | (scope, reqs) :: rest =>
      st' <- parse_reqs scope st reqs ;; parse_scopes st' rest
  end.

(** The [dependencies] and [extra_data] of the package. *)
Definition parse (requirements : dict (list pystr)) : result state :=
  parse_scopes ([], []) requirements.

End CondaMetaYamlHandler.

(** ** [get_conda_yaml_dependencies]: the flat list of an environment *)

(** An entry of the [dependencies] list as YAML loads it. *)
Inductive dependency :=
| DepStr (dep : pystr)
| DepDict (dep : dict (list pystr))
| DepOther.

Section CondaYaml.

(** [dparse2.parser.parse_requirement_line]: for a line it accepts,
    [req.name] and [str(req.specs)]. *)
Variable parse_requirement_line : pystr -> option (pystr * pystr).

(** The state of the loop: the local variable [version], assigned in some
    branches only, and [deps]. *)
Definition flat_state := (local (option pystr) * list DependentPackage)%type.

Definition flat_dependency (purl : PackageURL) (specs : option pystr)
    (is_pinned : bool) : DependentPackage :=
  mkDep purl specs (str "dependencies") true false is_pinned true.

(** What a parsed requirement line gives: [version], [is_pinned]. *)
Definition pypi_version (specs : pystr) : option pystr * bool :=
  if contains (str "==") specs
  then (Some (replace (str "==") [] specs), true)
  else (None, false).

(** The branch [isinstance(dep, str)]. *)
Definition parse_str_dep (st : flat_state) (dep : pystr) : result flat_state :=
  let '(version, deps) := st in
  '(namespace, dep) <-
    (if contains (str "::") dep
     then '(namespace, dep) <- unpack2 (split (str "::") dep) ;;
          if contains (str "/") namespace || contains (str ":") namespace
          then Ok (None, dep)
          else Ok (Some namespace, dep)
     else Ok (None, dep)) ;;
  '(version, purl, specs, is_pinned) <-
    match parse_requirement_line dep with
    | Some (name, specs) =>
        let '(version, is_pinned) := pypi_version specs in
        Ok (Bound version, mkPurl (str "pypi") None name version,
            Some specs, is_pinned)
    | None =>
        '(dep, version, specs, is_pinned) <-
          (if contains (str "=") dep
           then '(dep, v) <- unpack2 (split (str "=") dep) ;;
                Ok (dep, Bound (Some v), Some (str "=" ++ v), true)
           else Ok (dep, version, None, false)) ;;
        v <- read_local version ;;
        Ok (version, mkPurl (str "conda") namespace dep v, specs, is_pinned)
    end ;;
  if is_reserved (purl_name purl)
  then Ok (version, deps)
  else Ok (version, deps ++ [flat_dependency purl specs is_pinned]).

(** The body of [for line in dep.get('pip', [])]. *)
Definition parse_pip_line (st : flat_state) (line : pystr) : flat_state :=
  let '(version, deps) := st in
  match parse_requirement_line line with
  | Some (name, specs) =>
      let '(version, is_pinned) := pypi_version specs in
      (Bound version,
       deps ++ [flat_dependency (mkPurl (str "pypi") None name version)
                                (Some specs) is_pinned])
  | None => (version, deps)
  end.

(** The body of [for dep in dependencies]. *)
Definition parse_dep (st : flat_state) (dep : dependency) : result flat_state :=
  match dep with
  | DepStr dep => parse_str_dep st dep
  | DepDict dep =>
      let lines := match dict_get (str "pip") dep with
                   | Some lines => lines
                   | None => []
                   end in
      Ok (fold_left parse_pip_line lines st)
  | DepOther => Ok st
  end.

Fixpoint parse_deps (st : flat_state) (dependencies : list dependency)
  : result flat_state :=
  match dependencies with
  | [] => Ok st
  | dep :: rest => st' <- parse_dep st dep ;; parse_deps st' rest
  end.

Definition get_conda_yaml_dependencies (dependencies : list dependency)
  : result (list DependentPackage) :=
  '(_, deps) <- parse_deps (Unbound, []) dependencies ;; Ok deps.

End CondaYaml.

(** ** [CondaYamlHandler.parse]: the package of an environment file *)

Module CondaYamlHandler.

Definition datasource_id : pystr := str "conda_yaml".
Definition default_package_type : pystr := str "conda".
Definition default_primary_language : pystr := str "Python".

(** The mapping [saneyaml.load] gives for an environment file: the keys
    the module reads, each present or not. *)
Record conda_data := mkCondaData {
  cd_name : option pystr;
  cd_channels : option (list pystr);
  cd_dependencies : option (list dependency)
}.

(** The [package_data] mapping handed to [models.PackageData.from_data]. *)
Record PackageData := mkPackage {
  pkg_datasource_id : pystr;
  pkg_type : pystr;
  pkg_name : option pystr;
  pkg_primary_language : pystr;
  pkg_dependencies : list DependentPackage;
  pkg_extra_data : dict (list pystr);
  pkg_is_private : bool
}.

(** Truth value of [conda_data.get(key)] for a string or a list. *)
Definition truthy {A} (x : option (list A)) : bool :=
  match x with
  | Some (_ :: _) => true
  | _ => false
  end.

Section Parse.

Variable parse_requirement_line : pystr -> option (pystr * pystr).

(** The packages the generator yields, from the loaded mapping on. *)
Definition parse (conda : conda_data) : result (list PackageData) :=
  dependencies <-
    get_conda_yaml_dependencies parse_requirement_line
      (match cd_dependencies conda with
       | Some dependencies => dependencies
       | None => []
       end) ;;
  let name := cd_name conda in
  let extra_data :=
    match cd_channels conda with
    | Some channels =>
        if truthy (Some channels)
        then dict_set (str "channels") channels []
        else []
    | None => []
    end in
  if truthy name || truthy (Some dependencies)
  then Ok [mkPackage datasource_id default_package_type name
                     default_primary_language dependencies extra_data true]
  else Ok [].

End Parse.

End CondaYamlHandler.

(** ** [CondaMetaYamlHandler.get_conda_root] *)

Section CondaRoot.

(** A resource of the codebase: its [path] and [parent(codebase)], which
    is [None] at the root. *)
Variable Resource : Type.
Variable path : Resource -> pystr.
Variable parent : Resource -> option Resource.

Definition root_paths : list pystr :=
  [str "info/recipe.tar-extract/recipe/meta.yaml";
   str "info/recipe/recipe/meta.yaml";
   str "conda.recipe/meta.yaml"].

(** [for _seg in pth.split('/')]: one step up per segment, until there is
    no parent. *)
Fixpoint climb (segments : list pystr) (res : Resource) : option Resource :=
  match segments with
  | [] => Some res
  | _seg :: rest =>
      match parent res with
      | None => None
      | Some res => climb rest res
      end
  end.

(** [for pth in paths], then the [return] after the loop. *)
Fixpoint conda_root_from (paths : list pystr) (resource : Resource)
  : option Resource :=
  match paths with
  | [] => parent resource
  | pth :: rest =>
      if negb (endswith pth (path resource))
      then conda_root_from rest resource
      else climb (split (str "/") pth) resource
  end.

Definition get_conda_root (resource : Resource) : option Resource :=
  conda_root_from root_paths resource.

End CondaRoot.

(** * The vocabulary of the statements *)

(** ** Records and requirements *)

(** A record that is not named [pip] or [python]. *)
Definition unreserved (d : DependentPackage) : Prop :=
  is_reserved (purl_name (purl d)) = false.

(** What a pinned record carries.  The second alternative is that of a
    requirement line accepted by [parse_requirement_line]. *)
Definition pinned_has_version (d : DependentPackage) : Prop :=
  is_pinned d = true ->
  exists v,
    purl_version (purl d) = Some v
    /\ (extracted_requirement d = Some (str "=" ++ v)
        \/ exists specs,
             extracted_requirement d = Some specs
             /\ contains (str "==") specs = true
             /\ v = replace (str "==") [] specs).

(** An entry of the flat list that is not a mapping, hence holds no
    [pip] sub-list. *)
Definition not_dict (dep : dependency) : Prop :=
  match dep with
  | DepDict _ => False
  | _ => True
  end.

(** The records already found are only extended. *)
Definition frame (deps0 : list DependentPackage) (st : flat_state)
  : flat_state :=
  (fst st, deps0 ++ snd st).

(** The first two steps of [parse_requirement], named. *)
Definition eq_version (requirement : pystr) : result (option pystr) :=
  if startswith (str "==") requirement
  then '(_, version) <- unpack2 (split (str "==") requirement) ;;
       Ok (Some version)
  else Ok None.

Definition split_namespace (name : pystr) : result (option pystr * pystr) :=
  if contains (str "::") name
  then '(namespace, name) <- unpack2 (split (str "::") name) ;;
       Ok (Some namespace, name)
  else Ok (None, name).

(** A stand-in for [parse_requirement_line] to run the examples with: a
    name of letters, digits, [.], [_] and [-], then nothing or a
    comparison operator and what follows it.  On the lines of the
    examples it gives what the library gives: [req.name] and
    [str(req.specs)] for a requirement line, nothing for [name=version]
    and for [name version]. *)
Definition is_name_char (c : ascii) : bool :=
  let n := nat_of_ascii c in
  ((48 <=? n) && (n <=? 57)) || ((65 <=? n) && (n <=? 90))
  || ((97 <=? n) && (n <=? 122)) || mem_char c (str "._-").

Fixpoint span_name (s : pystr) : pystr * pystr :=
  match s with
  | [] => ([], [])
  | c :: s' =>
      if is_name_char c
      then let (a, b) := span_name s' in (c :: a, b)
      else ([], s)
  end.

Definition sample_requirement_line (line : pystr) : option (pystr * pystr) :=
  let (name, rest) := span_name line in
  let specs := lstrip rest in
  match name with
  | [] => None
  | _ :: _ =>
      match specs with
      | [] => Some (name, specs)
      | _ :: _ =>
          if existsb (fun op => startswith (str op) specs)
                     ["=="; ">="; "<="; "~="; "!="; "<"; ">"]%string
          then Some (name, specs)
          else None
      end
  end.

(** ** Lines of a template *)

(** A line of a file: the text and its newline. *)
Definition text_line (s : string) : pystr := str s ++ [newline].

(** A double-quoted value. *)
Definition quoted (s : string) : pystr := dquote :: str s ++ [dquote].

Definition with_newline (r : pystr) : pystr := r ++ [newline].

(** A line is read as pieces: text, and expressions [{{ body }}]. *)
Inductive piece :=
| Txt (t : pystr)
| Expr (body : pystr).

(** The text of an expression. *)
Definition pattern (body : pystr) : pystr := str "{{ " ++ body ++ str " }}".

Definition render_piece (p : piece) : pystr :=
  match p with
  | Txt t => t
  | Expr body => pattern body
  end.

Definition render (ps : list piece) : pystr :=
  List.concat (map render_piece ps).

(** No character of [chars] is in [s]. *)
Definition lacks (chars : string) (s : pystr) : bool :=
  forallb (fun c => negb (mem_char c (str chars))) s.

(** Text holds no brace that opens an expression, and the body of an
    expression holds no brace at all. *)
Definition clean_piece (p : piece) : bool :=
  match p with
  | Txt t => lacks "{" t
  | Expr body => lacks "{}" body
  end.

Definition clean (ps : list piece) : bool := forallb clean_piece ps.

Definition is_expr (p : piece) : bool :=
  match p with
  | Txt _ => false
  | Expr _ => true
  end.

(** One replacement, on pieces. *)
Definition subst_piece (body value : pystr) (p : piece) : piece :=
  match p with
  | Txt t => Txt t
  | Expr body' => if str_eqb body body' then Txt value else Expr body'
  end.

(** The body of the loop over the variables, on pieces. *)
Definition substitute_pieces (ps : list piece) (kv : pystr * pystr)
  : list piece :=
  let (variable, value) := kv in
  if contains (str "|lower") (render ps)
  then map (subst_piece (variable ++ str "|lower") (lower value)) ps
  else map (subst_piece variable value) ps.

(** A variable whose name holds no [}] and whose value opens no
    expression. *)
Definition var_ok (kv : pystr * pystr) : bool :=
  lacks "}" (fst kv) && lacks "{" (snd kv).

(** [body] is neither [name] nor [name|lower] for a name of the table. *)
Definition unmatched (variables : dict pystr) (body : pystr) : bool :=
  forallb (fun kv : pystr * pystr =>
             negb (str_eqb (fst kv) body)
             && negb (str_eqb (fst kv ++ str "|lower") body))
          variables.

(** What one line gives to the resolved text: nothing, or the line after
    substitution. *)
Definition resolve_line (variables : dict pystr) (line : pystr)
  : list pystr :=
  match line with
  | [] => []
  | _ :: _ =>
      if is_declaration (strip line) then []
      else
        let line := substitute variables line in
        if contains (str "{{") line then [] else [line]
  end.

(** ** References to variables *)

(** A line whose expressions are references to variables: [{{ name }}]
    and [{{ name|lower }}]. *)
Inductive ref :=
| Text (t : pystr)
| Var (name : pystr)
| VarLower (name : pystr).

Definition to_piece (r : ref) : piece :=
  match r with
  | Text t => Txt t
  | Var name => Expr name
  | VarLower name => Expr (name ++ str "|lower")
  end.

Definition render_refs (rs : list ref) : pystr := render (map to_piece rs).

(** What the reference stands for: the value of the variable, lower-cased
    for [|lower]; a reference to a name that is not in the table stays. *)
Definition resolve_ref (variables : dict pystr) (r : ref) : ref :=
  match r with
  | Text t => Text t
  | Var name =>
      match dict_get name variables with
      | Some value => Text value
      | None => Var name
      end
  | VarLower name =>
      match dict_get name variables with
      | Some value => Text (lower value)
      | None => VarLower name
      end
  end.

(** Text and values hold neither [{] nor [|]; names hold no brace and no
    [|]. *)
Definition proper_ref (r : ref) : bool :=
  match r with
  | Text t => lacks "{|" t
  | Var name | VarLower name => lacks "{}|" name
  end.

Definition proper_var (kv : pystr * pystr) : bool :=
  lacks "}|" (fst kv) && lacks "{|" (snd kv).

Definition is_lower (r : ref) : bool :=
  match r with VarLower _ => true | _ => false end.

Definition is_plain (r : ref) : bool :=
  match r with Var _ => true | _ => false end.

Definition subst_var (k v : pystr) (r : ref) : ref :=
  match r with
  | Var name => if str_eqb k name then Text v else r
  | _ => r
  end.

Definition subst_lower (k v : pystr) (r : ref) : ref :=
  match r with
  | VarLower name => if str_eqb k name then Text (lower v) else r
  | _ => r
  end.

(** The body of the loop over the variables, on references. *)
Definition substitute_refs (rs : list ref) (kv : pystr * pystr) : list ref :=
  let (k, v) := kv in
  if existsb is_lower rs then map (subst_lower k v) rs
  else map (subst_var k v) rs.

(** ** Tokens and scopes *)

(** A requirement of a recipe, written from its parts:
    [namespace::name=version requirement], each part but the name
    optional. *)
Definition token (namespace : option pystr) (name : pystr)
    (pin requirement : option pystr) : pystr :=
  match namespace with Some ns => ns ++ str "::" | None => [] end
  ++ name
  ++ match pin with Some v => str "=" ++ v | None => [] end
  ++ match requirement with Some r => str " " ++ r | None => [] end.

(** What the loop over the scopes makes of every record. *)
Definition classified (d : DependentPackage) : Prop :=
  purl_type (purl d) = str "conda"
  /\ is_runtime d = contains (str "run") (scope d)
  /\ is_optional d = negb (is_runtime d)
  /\ is_direct d = true.

(** The number of tokens of the requirements, and of those kept in
    [extra_data]. *)
Definition token_count (requirements : dict (list pystr)) : nat :=
  List.length (List.concat (map snd requirements)).

(** A token whose parsed name is [pip] or [python]. *)
Definition reserved_token (req : pystr) : Prop :=
  exists f, CondaMetaYamlHandler.parse_requirement req = Ok f
            /\ is_reserved (CondaMetaYamlHandler.req_name f) = true.

Definition extra_reserved (extra : dict (list pystr)) : Prop :=
  forall scope reqs,
    dict_get scope extra = Some reqs -> Forall reserved_token reqs.

(** What the loop over the flat list makes of every record. *)
Definition flat_classified (d : DependentPackage) : Prop :=
  scope d = str "dependencies"
  /\ is_runtime d = true /\ is_optional d = false /\ is_direct d = true
  /\ ((purl_type (purl d) = str "pypi" /\ purl_namespace (purl d) = None)
      \/ (purl_type (purl d) = str "conda"
          /\ forall ns, purl_namespace (purl d) = Some ns ->
                        ~ In "/"%char ns /\ ~ In ":"%char ns)).

(** An entry of the flat list that adds no record: a requirement line
    named [pip] or [python], or a value that is neither a string nor a
    mapping. *)
Definition reserved_entry
    (parse_requirement_line : pystr -> option (pystr * pystr))
    (dep : dependency) : Prop :=
  match dep with
  | DepStr dep =>
      contains (str "::") dep = false
      /\ exists name specs,
           parse_requirement_line dep = Some (name, specs)
           /\ is_reserved name = true
  | DepDict _ => False
  | DepOther => True
  end.

(** ** Resources *)

(** The ancestor [n] levels up, if there is one. *)
Fixpoint iter_parent {Resource : Type} (parent : Resource -> option Resource)
    (n : nat) (res : Resource) : option Resource :=
  match n with
  | O => Some res
  | S k =>
      match parent res with
      | None => None
      | Some res => iter_parent parent k res
      end
  end.

(** ** Declarations *)

(** A declaration as recipes write it: [{% set name = "value" %}]. *)
Definition declaration (name value : pystr) : pystr :=
  str "{% set " ++ name ++ str " = " ++ dquote :: value ++ dquote
  :: str " %}".

(** No character of the list [chars] is in [s]. *)
Definition free_of (chars s : pystr) : bool :=
  forallb (fun c => negb (mem_char c chars)) s.

(** Every character of [s] is in the list [chars]. *)
Definition made_of (chars s : pystr) : bool :=
  forallb (fun c => mem_char c chars) s.

(** The first, and the last, character of [s] is not in [chars]. *)
Definition starts_clear (chars s : pystr) : bool :=
  match s with
  | [] => true
  | c :: _ => negb (mem_char c chars)
  end.

Definition ends_clear (chars s : pystr) : bool := starts_clear chars (rev s).

(** A name: not empty, without white space and [=].  A value: without
    [=], double quote and newline. *)
Definition wf_name (name : pystr) : bool :=
  match name with
  | [] => false
  | _ :: _ => free_of ("="%char :: whitespace) name
  end.

Definition wf_value (value : pystr) : bool :=
  free_of ["="%char; dquote; newline] value.

(** The lines of a recipe: declarations, and the others, given without
    their newline. *)
Inductive source_line :=
| Decl (name value : pystr)
| Body (text : pystr).

Definition render_source (l : source_line) : pystr :=
  match l with
  | Decl name value => declaration name value ++ [newline]
  | Body text => text ++ [newline]
  end.

(** A line without its newline. *)
Definition chomp (l : source_line) : pystr :=
  match l with
  | Decl name value => declaration name value
  | Body text => text
  end.

Definition wf_source (l : source_line) : bool :=
  match l with
  | Decl name value => wf_name name && wf_value value
  | Body text =>
      free_of [newline] text
      && negb (is_declaration (strip (text ++ [newline])))
  end.

(** The table the declarations build, one after the other. *)
Definition declare (table : dict pystr) (l : source_line) : dict pystr :=
  match l with
  | Decl name value => dict_set name value table
  | Body _ => table
  end.

Definition declared (lines : list source_line) : dict pystr :=
  fold_left declare lines [].

(** The lines that are not declarations. *)
Definition bodies (lines : list source_line) : list pystr :=
  flat_map (fun l => match l with
                     | Decl _ _ => []
                     | Body text => [text ++ [newline]]
                     end) lines.

(** The names declared, in the order of the file. *)
Definition declarations (lines : list source_line)
  : list (pystr * pystr) :=
  flat_map (fun l => match l with
                     | Decl name value => [(name, value)]
                     | Body _ => []
                     end) lines.

(** [l1] is [l2] with some elements left out. *)
Inductive sublist {A : Type} : list A -> list A -> Prop :=
| sublist_nil : sublist [] []
| sublist_skip x l1 l2 : sublist l1 l2 -> sublist l1 (x :: l2)
| sublist_keep x l1 l2 : sublist l1 l2 -> sublist (x :: l1) (x :: l2).

(** A reference that stands for text once resolved: text, or a
    reference to a name of the table. *)
Definition resolved (variables : dict pystr) (r : ref) : bool :=
  match resolve_ref variables r with
  | Text _ => true
  | _ => false
  end.

(** * Facts about the Python primitives *)

Section StringFacts.

Lemma str_eqb_refl (a : pystr) : str_eqb a a = true.
Proof.
  induction a as [|c a IH]; simpl; [reflexivity|].
  now rewrite Ascii.eqb_refl, IH.
Qed.

Lemma str_eqb_eq (a b : pystr) : str_eqb a b = true <-> a = b.
Proof.
  split.
  - revert b; induction a as [|c a IH]; intros [|d b] H; simpl in H;
      try discriminate; [reflexivity|].
    apply andb_true_iff in H as [Hc Hs].
    apply Ascii.eqb_eq in Hc. apply IH in Hs. now subst.
  - intros ->. apply str_eqb_refl.
Qed.

Lemma str_eqb_neq (a b : pystr) : str_eqb a b = false <-> a <> b.
Proof.
  split.
  - intros H E. apply str_eqb_eq in E. congruence.
  - intros H. destruct (str_eqb a b) eqn:E; [|reflexivity].
    apply str_eqb_eq in E. contradiction.
Qed.

Lemma mem_char_In (c : ascii) (chars : pystr) :
  mem_char c chars = true <-> In c chars.
Proof.
  unfold mem_char. rewrite existsb_exists. split.
  - intros [x [Hx E]]. apply Ascii.eqb_eq in E. now subst.
  - intros H. exists c. split; [assumption | apply Ascii.eqb_refl].
Qed.

Lemma startswith_app (p s : pystr) : startswith p (p ++ s) = true.
Proof.
  induction p as [|c p IH]; simpl; [reflexivity|].
  now rewrite Ascii.eqb_refl.
Qed.

Lemma startswith_inv (p s : pystr) :
  startswith p s = true -> exists r, s = p ++ r.
Proof.
  revert s; induction p as [|c p IH]; intros s H.
  - now exists s.
  - destruct s as [|d s]; simpl in H; [discriminate|].
    apply andb_true_iff in H as [Hc Hs].
    apply Ascii.eqb_eq in Hc. subst d.
    destruct (IH _ Hs) as [r ->]. now exists r.
Qed.

Lemma startswith_iff (p s : pystr) :
  startswith p s = true <-> exists r, s = p ++ r.
Proof.
  split; [apply startswith_inv|].
  intros [r ->]. apply startswith_app.
Qed.

Lemma startswith_head (c : ascii) (p s : pystr) (d : ascii) :
  c <> d -> startswith (c :: p) (d :: s) = false.
Proof.
  intros H. simpl. apply Ascii.eqb_neq in H. now rewrite H.
Qed.

Lemma contains_cons (sub : pystr) (c : ascii) (s : pystr) :
  contains sub (c :: s) = startswith sub (c :: s) || contains sub s.
Proof. reflexivity. Qed.

Lemma contains_app_r (sub a b : pystr) :
  contains sub b = true -> contains sub (a ++ b) = true.
Proof.
  intros H. induction a as [|c a IH]; simpl; [assumption|].
  change (contains sub (a ++ b)) with (contains sub (a ++ b)) in IH.
  rewrite IH. apply orb_true_r.
Qed.

Lemma contains_here (sub a b : pystr) : contains sub (a ++ sub ++ b) = true.
Proof.
  apply contains_app_r.
  destruct (sub ++ b) eqn:E; simpl.
  - destruct sub; [reflexivity | discriminate].
  - rewrite <- E, startswith_app. reflexivity.
Qed.

Lemma contains_inv (sub s : pystr) :
  contains sub s = true -> exists a b, s = a ++ sub ++ b.
Proof.
  induction s as [|c s IH]; simpl; intros H.
  - rewrite orb_false_r in H. apply startswith_inv in H as [r Hr].
    exists [], r. assumption.
  - apply orb_true_iff in H as [H|H].
    + apply startswith_inv in H as [r Hr]. exists [], r. assumption.
    + destruct (IH H) as [a [b ->]]. now exists (c :: a), b.
Qed.

Lemma contains_iff (sub s : pystr) :
  contains sub s = true <-> exists a b, s = a ++ sub ++ b.
Proof.
  split; [apply contains_inv|].
  intros [a [b ->]]. apply contains_here.
Qed.

(** A substring of a substring. *)
Lemma contains_trans (sub mid s : pystr) :
  contains sub mid = true -> contains mid s = true -> contains sub s = true.
Proof.
  intros H1 H2.
  apply contains_inv in H1 as [a [b ->]].
  apply contains_inv in H2 as [a' [b' ->]].
  apply contains_iff. exists (a' ++ a), (b ++ b').
  now rewrite !app_assoc.
Qed.

Lemma contains_app_l (sub a b : pystr) :
  contains sub a = true -> contains sub (a ++ b) = true.
Proof.
  intros H. apply contains_inv in H as [x [y ->]].
  apply contains_iff. exists x, (y ++ b). now rewrite !app_assoc.
Qed.

Lemma contains_app_false (sub a b : pystr) :
  contains sub (a ++ b) = false ->
  contains sub a = false /\ contains sub b = false.
Proof.
  intros H. split.
  - destruct (contains sub a) eqn:E; [|reflexivity].
    now rewrite (contains_app_l _ _ b E) in H.
  - destruct (contains sub b) eqn:E; [|reflexivity].
    now rewrite (contains_app_r _ a _ E) in H.
Qed.

(** [c in s] for a one-character string. *)
Lemma contains_char (c : ascii) (s : pystr) :
  contains [c] s = true <-> In c s.
Proof.
  rewrite contains_iff. split.
  - intros [a [b ->]]. apply in_or_app. right. now left.
  - intros H. apply in_split in H as [a [b ->]]. now exists a, b.
Qed.

Lemma contains_char_false (c : ascii) (s : pystr) :
  contains [c] s = false <-> ~ In c s.
Proof.
  rewrite <- contains_char. destruct (contains [c] s).
  - split; [discriminate | intros H; now elim H].
  - split; [discriminate | reflexivity].
Qed.

(** A string with an occurrence of [sub] holds each character of [sub]. *)
Lemma contains_In (sub s : pystr) (c : ascii) :
  contains sub s = true -> In c sub -> In c s.
Proof.
  intros H Hc. apply contains_inv in H as [a [b ->]].
  apply in_or_app. right. apply in_or_app. now left.
Qed.

Lemma startswith_cons_inv (c d : ascii) (p s : pystr) :
  startswith (c :: p) (d :: s) = true -> c = d /\ startswith p s = true.
Proof.
  simpl. intros H. apply andb_true_iff in H as [Hc Hs].
  apply Ascii.eqb_eq in Hc. now split.
Qed.

Lemma startswith_contains (p s : pystr) :
  startswith p s = true -> contains p s = true.
Proof.
  intros H. destruct s; simpl in *; now rewrite H.
Qed.

End StringFacts.

Section SplitFacts.

Lemma split_from_skip (sep cur u s : pystr) :
  split_from sep (List.length u) cur (u ++ s) = split_from sep 0 cur s.
Proof.
  induction u as [|c u IH]; simpl; [|assumption].
  destruct s; reflexivity.
Qed.

(** Without an occurrence of the separator there is one part. *)
Lemma split_from_none (sep s cur : pystr) :
  contains sep s = false -> split_from sep 0 cur s = [rev cur ++ s].
Proof.
  revert cur; induction s as [|c s IH]; intros cur H.
  - simpl. now rewrite app_nil_r.
  - rewrite contains_cons in H. apply orb_false_iff in H as [H1 H2].
    simpl split_from. rewrite H1, (IH _ H2). simpl.
    now rewrite <- app_assoc.
Qed.

Lemma split_none (sep s : pystr) :
  contains sep s = false -> split sep s = [s].
Proof. intros H. unfold split. now rewrite split_from_none. Qed.

(** A separator at the front closes the current part. *)
Lemma split_from_sep (sep cur s : pystr) :
  sep <> [] ->
  split_from sep 0 cur (sep ++ s) = rev cur :: split_from sep 0 [] s.
Proof.
  intros Hsep. destruct sep as [|c sep]; [congruence|].
  change ((c :: sep) ++ s) with (c :: (sep ++ s)).
  cbn [split_from].
  change (c :: sep ++ s) with ((c :: sep) ++ s).
  rewrite startswith_app. f_equal.
  replace (List.length (c :: sep) - 1) with (List.length sep)
    by (simpl; lia).
  apply split_from_skip.
Qed.

(** Characters before the first separator character go to the current
    part. *)
Lemma split_from_char_app (c : ascii) (a cur s : pystr) :
  ~ In c a ->
  split_from [c] 0 cur (a ++ s) = split_from [c] 0 (rev a ++ cur) s.
Proof.
  revert cur; induction a as [|d a IH]; intros cur H; [reflexivity|].
  simpl app. cbn [split_from].
  rewrite startswith_head by (intros ->; apply H; now left).
  rewrite IH by (intros Hin; apply H; now right).
  simpl. now rewrite <- app_assoc.
Qed.

(** [name=version]: one separator gives the two parts. *)
Lemma split_char_once (c : ascii) (a b : pystr) :
  ~ In c a -> ~ In c b -> split [c] (a ++ c :: b) = [a; b].
Proof.
  intros Ha Hb. unfold split.
  rewrite split_from_char_app by assumption.
  change (c :: b) with ([c] ++ b).
  rewrite split_from_sep by discriminate.
  rewrite split_from_none by (now apply contains_char_false).
  now rewrite app_nil_r, rev_involutive.
Qed.

(** The parts are made of characters of the string. *)
Lemma split_from_chars (sep : pystr) (c : ascii) (s : pystr) :
  forall (k : nat) (cur p : pystr),
    In p (split_from sep k cur s) -> In c p -> In c cur \/ In c s.
Proof.
  induction s as [|d s IH]; intros k cur p Hp Hc.
  - simpl in Hp. destruct Hp as [<-|[]]. left. now apply in_rev.
  - cbn [split_from] in Hp. destruct k as [|k].
    + destruct (startswith sep (d :: s)).
      * destruct Hp as [<-|Hp]; [left; now apply in_rev|].
        destruct (IH _ _ _ Hp Hc) as [[]|H]. right; now right.
      * destruct (IH _ _ _ Hp Hc) as [[->|H]|H].
        -- right; now left.
        -- now left.
        -- right; now right.
    + destruct (IH _ _ _ Hp Hc) as [H|H]; [now left | right; now right].
Qed.

Lemma split_chars (sep s p : pystr) (c : ascii) :
  In p (split sep s) -> In c p -> In c s.
Proof.
  intros Hp Hc. destruct (split_from_chars _ _ _ _ _ _ Hp Hc) as [[]|H].
  assumption.
Qed.

Lemma unpack2_inv (parts : list pystr) (a b : pystr) :
  unpack2 parts = Ok (a, b) -> parts = [a; b].
Proof.
  destruct parts as [|x [|y [|z parts]]]; simpl; intros H;
    try discriminate. now inversion H.
Qed.

Lemma find_split_inv (sep s a b : pystr) :
  find_split sep s = Some (a, b) -> s = a ++ sep ++ b.
Proof.
  revert a; induction s as [|c s IH]; intros a H.
  - simpl in H. destruct (startswith sep []) eqn:E; [|discriminate].
    inversion H; subst. apply startswith_inv in E as [r Hr].
    destruct sep; [reflexivity | discriminate].
  - cbn [find_split] in H. destruct (startswith sep (c :: s)) eqn:E.
    + inversion H; subst. apply startswith_inv in E as [r Hr].
      rewrite Hr, skipn_app, skipn_all, Nat.sub_diag. reflexivity.
    + destruct (find_split sep s) as [[a' b']|] eqn:F; [|discriminate].
      inversion H; subst. now rewrite (IH _ eq_refl).
Qed.

Lemma find_split_char (c : ascii) (a b : pystr) :
  ~ In c a -> find_split [c] (a ++ c :: b) = Some (a, b).
Proof.
  induction a as [|d a IH]; intros H.
  - simpl. now rewrite Ascii.eqb_refl.
  - simpl app. cbn [find_split].
    rewrite startswith_head by (intros ->; apply H; now left).
    rewrite IH by (intros Hin; apply H; now right). reflexivity.
Qed.

(** [s.partition(sep)] cuts [s] in three. *)
Lemma partition_app (sep s a m b : pystr) :
  partition sep s = (a, m, b) -> s = a ++ m ++ b.
Proof.
  unfold partition. destruct (find_split sep s) as [[x y]|] eqn:F.
  - intros H; inversion H; subst. now apply find_split_inv.
  - intros H; inversion H; subst. now rewrite app_nil_r.
Qed.

Lemma partition_char (c : ascii) (a b : pystr) :
  ~ In c a -> partition [c] (a ++ c :: b) = (a, [c], b).
Proof.
  intros H. unfold partition. now rewrite find_split_char.
Qed.

End SplitFacts.

Section DictFacts.

Context {V : Type}.

Lemma dict_get_set_same (k : pystr) (v : V) (d : dict V) :
  dict_get k (dict_set k v d) = Some v.
Proof.
  induction d as [|[k' v'] d IH]; simpl.
  - now rewrite str_eqb_refl.
  - destruct (str_eqb k k') eqn:E; simpl.
    + now rewrite str_eqb_refl.
    + now rewrite E.
Qed.

Lemma dict_get_set_other (k k' : pystr) (v : V) (d : dict V) :
  k' <> k -> dict_get k' (dict_set k v d) = dict_get k' d.
Proof.
  intros H. induction d as [|[k0 v0] d IH]; simpl.
  - apply str_eqb_neq in H. now rewrite H.
  - destruct (str_eqb k k0) eqn:E; simpl.
    + apply str_eqb_eq in E. subst k0.
      apply str_eqb_neq in H. now rewrite H.
    + now rewrite IH.
Qed.

End DictFacts.

(** * The scoped requirements of a recipe *)

Module MetaYamlFacts.

Import CondaMetaYamlHandler.

Lemma bind_ok {A B} (m : result A) (f : A -> result B) (b : B) :
  bind m f = Ok b -> exists a, m = Ok a /\ f a = Ok b.
Proof. destruct m; simpl; intros H; [eauto | discriminate]. Qed.

Lemma parse_requirement_eq (req : pystr) :
  parse_requirement req =
  (let '(name, _, requirement) := partition (str " ") req in
   version <- eq_version requirement ;;
   '(namespace, name) <- split_namespace name ;;
   if contains (str "=") name
   then '(name, version) <- unpack2 (split (str "=") name) ;;
        Ok (mkReq name namespace (Some version) true (str "=" ++ version))
   else Ok (mkReq name namespace version false requirement)).
Proof. reflexivity. Qed.

(** A pinned requirement has the version of its name part, and [=version]
    as its requirement. *)
Lemma parse_requirement_pinned (req : pystr) (f : requirement_fields) :
  parse_requirement req = Ok f ->
  req_is_pinned f = true ->
  exists v, req_version f = Some v /\ req_requirement f = str "=" ++ v.
Proof.
  rewrite parse_requirement_eq.
  destruct (partition (str " ") req) as [[name sp] requirement].
  intros H Hp.
  apply bind_ok in H as [version [_ H]].
  apply bind_ok in H as [[namespace name'] [_ H]].
  destruct (contains (str "=") name').
  - apply bind_ok in H as [[n v] [_ H]]. inversion H; subst; simpl in *.
    now exists v.
  - inversion H; subst; simpl in *. discriminate.
Qed.

(** The namespace-stripped name is made of characters of the name. *)
Lemma split_namespace_chars (name name' : pystr) (ns : option pystr)
    (c : ascii) :
  split_namespace name = Ok (ns, name') -> In c name' -> In c name.
Proof.
  unfold split_namespace. destruct (contains (str "::") name).
  - intros H Hc. apply bind_ok in H as [[a b] [E H]].
    inversion H; subst. apply unpack2_inv in E.
    apply split_chars with (sep := str "::") (p := name'); [|assumption].
    rewrite E. right; now left.
  - intros H; now inversion H.
Qed.

(** Only [=] in the text before the first space pins. *)
Lemma parse_requirement_pin_source (req : pystr) (f : requirement_fields) :
  parse_requirement req = Ok f ->
  req_is_pinned f = true ->
  In "="%char (fst (fst (partition (str " ") req))).
Proof.
  rewrite parse_requirement_eq.
  destruct (partition (str " ") req) as [[name sp] requirement].
  intros H Hp. simpl.
  apply bind_ok in H as [version [_ H]].
  apply bind_ok in H as [[namespace name'] [E H]].
  destruct (contains (str "=") name') eqn:C.
  - eapply split_namespace_chars; [eassumption|]. now apply contains_char.
  - inversion H; subst; simpl in *. discriminate.
Qed.

(** The token [name ==version]. *)
Lemma parse_requirement_exact (name version : pystr) :
  ~ In " "%char name ->
  ~ In "="%char name ->
  contains (str "::") name = false ->
  contains (str "==") version = false ->
  parse_requirement (name ++ str " ==" ++ version)
  = Ok (mkReq name None (Some version) false (str "==" ++ version)).
Proof.
  intros Hsp Heq Hns Hv.
  rewrite parse_requirement_eq.
  change (name ++ str " ==" ++ version)
    with (name ++ " "%char :: (str "==" ++ version)).
  change (str " ") with [" "%char].
  rewrite partition_char by assumption.
  unfold eq_version. rewrite startswith_app.
  unfold split. rewrite split_from_sep by discriminate.
  rewrite split_from_none by assumption.
  simpl bind. unfold split_namespace. rewrite Hns. simpl bind.
  apply contains_char_false in Heq.
  change (str "=") with ["="%char]. now rewrite Heq.
Qed.

(** A token without [=] and without [::] parses, to no version. *)
Lemma parse_requirement_plain (req : pystr) :
  ~ In "="%char req ->
  contains (str "::") req = false ->
  exists f, parse_requirement req = Ok f
            /\ req_version f = None /\ req_is_pinned f = false.
Proof.
  intros Heq Hns.
  rewrite parse_requirement_eq.
  destruct (partition (str " ") req) as [[name sp] requirement] eqn:P.
  apply partition_app in P. subst req.
  assert (Hr : startswith (str "==") requirement = false).
  { destruct (startswith (str "==") requirement) eqn:E; [|reflexivity].
    elim Heq. apply in_or_app. right. apply in_or_app. right.
    apply startswith_inv in E as [r ->]. now left. }
  apply contains_app_false in Hns as [Hns _].
  assert (Hn : contains (str "=") name = false).
  { apply contains_char_false. intros H. apply Heq.
    apply in_or_app. now left. }
  unfold eq_version, split_namespace. rewrite Hr, Hns. cbn [bind].
  rewrite Hn. eexists. repeat split.
Qed.

(** ** The loop *)

Section Invariant.

(** A property of every record the loop appends. *)
Variable P : DependentPackage -> Prop.
Hypothesis P_make : forall scope req f,
  parse_requirement req = Ok f ->
  is_reserved (req_name f) = false ->
  P (make_dependency scope f).

Lemma parse_req_inv (scope req : pystr) (st st' : state) :
  parse_req scope st req = Ok st' ->
  Forall P (fst st) -> Forall P (fst st').
Proof.
  destruct st as [deps extra]. unfold parse_req.
  intros H HP. apply bind_ok in H as [f [E H]].
  destruct (is_reserved (req_name f)) eqn:R.
  - destruct (dict_get scope extra); inversion H; subst; assumption.
  - inversion H; subst; simpl. apply Forall_app. split; [assumption|].
    constructor; [|constructor]. eapply P_make; eassumption.
Qed.

Lemma parse_reqs_inv (scope : pystr) (reqs : list pystr) :
  forall st st', parse_reqs scope st reqs = Ok st' ->
                 Forall P (fst st) -> Forall P (fst st').
Proof.
  induction reqs as [|req reqs IH]; simpl; intros st st' H HP.
  - inversion H; now subst.
  - apply bind_ok in H as [st1 [E H]].
    eapply IH; [eassumption|]. eapply parse_req_inv; eassumption.
Qed.

Lemma parse_scopes_inv (requirements : dict (list pystr)) :
  forall st st', parse_scopes st requirements = Ok st' ->
                 Forall P (fst st) -> Forall P (fst st').
Proof.
  induction requirements as [|[scope reqs] rest IH]; simpl;
    intros st st' H HP.
  - inversion H; now subst.
  - apply bind_ok in H as [st1 [E H]].
    eapply IH; [eassumption|]. eapply parse_reqs_inv; eassumption.
Qed.

Lemma parse_inv (requirements : dict (list pystr)) (st : state) :
  parse requirements = Ok st -> Forall P (fst st).
Proof.
  intros H. eapply parse_scopes_inv; [eassumption|]. constructor.
Qed.

End Invariant.

Lemma make_dependency_purl (scope : pystr) (f : requirement_fields) :
  purl (make_dependency scope f)
  = mkPurl default_package_type (req_namespace f) (req_name f)
           (req_version f)
  /\ extracted_requirement (make_dependency scope f)
     = Some (req_requirement f)
  /\ is_pinned (make_dependency scope f) = req_is_pinned f
  /\ is_direct (make_dependency scope f) = true.
Proof.
  unfold make_dependency. destruct (contains (str "run") scope);
    repeat split.
Qed.

Lemma parse_unreserved (requirements : dict (list pystr)) (st : state) :
  parse requirements = Ok st -> Forall unreserved (fst st).
Proof.
  apply parse_inv. intros scope req f _ R. unfold unreserved.
  destruct (make_dependency_purl scope f) as [-> _]. exact R.
Qed.

Lemma parse_pinned (requirements : dict (list pystr)) (st : state) :
  parse requirements = Ok st -> Forall pinned_has_version (fst st).
Proof.
  apply parse_inv. intros scope req f E _ Hp.
  destruct (make_dependency_purl scope f) as [Hpurl [Hreq [Hpin _]]].
  rewrite Hpin in Hp.
  destruct (parse_requirement_pinned _ E Hp) as [v [Hv Hr]].
  exists v. rewrite Hpurl, Hreq, Hr. simpl. split; [assumption | now left].
Qed.

End MetaYamlFacts.

(** * The flat dependency list of an environment *)

Module CondaYamlFacts.

Import MetaYamlFacts.

Section Facts.

Variable parse_requirement_line : pystr -> option (pystr * pystr).

Local Abbreviation str_dep := (parse_str_dep parse_requirement_line).
Local Abbreviation pip_line := (parse_pip_line parse_requirement_line).
Local Abbreviation one_dep := (parse_dep parse_requirement_line).
Local Abbreviation all_deps := (parse_deps parse_requirement_line).
Local Abbreviation flat_deps :=
  (get_conda_yaml_dependencies parse_requirement_line).

Lemma pypi_version_pinned (name specs : pystr) :
  let '(version, is_pinned) := pypi_version specs in
  pinned_has_version
    (flat_dependency (mkPurl (str "pypi") None name version)
                     (Some specs) is_pinned).
Proof.
  unfold pypi_version. destruct (contains (str "==") specs) eqn:E.
  - intros _. eexists. split; [reflexivity|]. right. now exists specs.
  - intros H; discriminate H.
Qed.

(** A string entry appends nothing or one record. *)
Lemma parse_str_dep_spec (st st' : flat_state) (dep : pystr) :
  str_dep st dep = Ok st' ->
  snd st' = snd st
  \/ exists d, snd st' = snd st ++ [d]
               /\ unreserved d /\ pinned_has_version d.
Proof.
  destruct st as [version deps]. unfold parse_str_dep.
  intros H. apply bind_ok in H as [[namespace dep'] [_ H]].
  apply bind_ok in H as [[[[version' purl] specs] is_pinned] [E H]].
  destruct (is_reserved (purl_name purl)) eqn:R;
    inversion H; subst; simpl; [now left|right].
  eexists. split; [reflexivity|]. split; [exact R|].
  destruct (parse_requirement_line dep') as [[name specs']|].
  - pose proof (pypi_version_pinned name specs') as Hp.
    destruct (pypi_version specs') as [v p]. now inversion E; subst.
  - apply bind_ok in E as [[[[dep2 version2] specs2] pinned2] [E1 E2]].
    apply bind_ok in E2 as [v [E2 E3]]. inversion E3; subst.
    destruct (contains (str "=") dep').
    + apply bind_ok in E1 as [[a b] [_ E1]]. inversion E1; subst.
      simpl in E2. inversion E2; subst.
      intros _. exists b. split; [reflexivity | now left].
    + inversion E1; subst. intros Hp; discriminate Hp.
Qed.

Lemma parse_pip_line_spec (st : flat_state) (line : pystr) :
  snd (pip_line st line) = snd st
  \/ exists d, snd (pip_line st line) = snd st ++ [d]
               /\ pinned_has_version d.
Proof.
  destruct st as [version deps]. unfold parse_pip_line.
  destruct (parse_requirement_line line) as [[name specs]|]; [|now left].
  pose proof (pypi_version_pinned name specs) as Hp.
  destruct (pypi_version specs) as [v p]. right. eexists.
  split; [reflexivity | exact Hp].
Qed.

Lemma parse_pip_lines_pinned (lines : list pystr) :
  forall st, Forall pinned_has_version (snd st) ->
             Forall pinned_has_version (snd (fold_left pip_line lines st)).
Proof.
  induction lines as [|line lines IH]; simpl; intros st H; [assumption|].
  apply IH. destruct (parse_pip_line_spec st line) as [->|[d [-> Hd]]];
    [assumption|].
  apply Forall_app. split; [assumption|]. now repeat constructor.
Qed.

Lemma parse_dep_pinned (st st' : flat_state) (dep : dependency) :
  one_dep st dep = Ok st' ->
  Forall pinned_has_version (snd st) -> Forall pinned_has_version (snd st').
Proof.
  destruct dep as [dep|dep|]; simpl; intros H HP.
  - destruct (parse_str_dep_spec _ _ H) as [->|[d [-> [_ Hd]]]];
      [assumption|].
    apply Forall_app. split; [assumption|]. now repeat constructor.
  - inversion H; subst. now apply parse_pip_lines_pinned.
  - inversion H; now subst.
Qed.

Lemma parse_deps_pinned (dependencies : list dependency) :
  forall st st', all_deps st dependencies = Ok st' ->
                 Forall pinned_has_version (snd st) ->
                 Forall pinned_has_version (snd st').
Proof.
  induction dependencies as [|dep rest IH]; simpl; intros st st' H HP.
  - inversion H; now subst.
  - apply bind_ok in H as [st1 [E H]].
    eapply IH; [eassumption|]. eapply parse_dep_pinned; eassumption.
Qed.

Lemma get_conda_yaml_dependencies_pinned
    (dependencies : list dependency) (deps : list DependentPackage) :
  flat_deps dependencies = Ok deps ->
  Forall pinned_has_version deps.
Proof.
  unfold get_conda_yaml_dependencies. intros H.
  apply bind_ok in H as [[v out] [E H]]. inversion H; subst.
  change deps with (snd (v, deps)).
  eapply parse_deps_pinned; [eassumption|]. constructor.
Qed.

(** ** Entries that are not [pip] sub-lists *)

Lemma parse_deps_unreserved (dependencies : list dependency) :
  Forall not_dict dependencies ->
  forall st st', all_deps st dependencies = Ok st' ->
                 Forall unreserved (snd st) -> Forall unreserved (snd st').
Proof.
  induction 1 as [|dep rest Hd _ IH]; simpl; intros st st' H HP.
  - inversion H; now subst.
  - apply bind_ok in H as [st1 [E H]].
    eapply IH; [eassumption|].
    destruct dep as [dep|dep|]; simpl in *; [|contradiction|].
    + destruct (parse_str_dep_spec _ _ E) as [->|[d [-> [Hu _]]]];
        [assumption|].
      apply Forall_app. split; [assumption|]. now repeat constructor.
    + inversion E; now subst.
Qed.

(** ** Order: the records of earlier entries come first *)

Lemma parse_str_dep_frame (deps0 : list DependentPackage) (st : flat_state)
    (dep : pystr) :
  str_dep (frame deps0 st) dep
  = st' <- str_dep st dep ;; Ok (frame deps0 st').
Proof.
  destruct st as [version deps]. unfold parse_str_dep, frame.
  cbn [fst snd].
  destruct (if contains (str "::") dep then _ else _) as [[ns dep']|];
    cbn [bind]; [|reflexivity].
  destruct (match parse_requirement_line dep' with Some _ => _ | None => _ end)
    as [[[[v p] s] b]|]; cbn [bind]; [|reflexivity].
  destruct (is_reserved (purl_name p)); cbn [bind fst snd];
    [reflexivity|]. now rewrite app_assoc.
Qed.

Lemma parse_pip_line_frame (deps0 : list DependentPackage) (st : flat_state)
    (line : pystr) :
  pip_line (frame deps0 st) line = frame deps0 (pip_line st line).
Proof.
  destruct st as [version deps]. unfold parse_pip_line, frame.
  cbn [fst snd].
  destruct (parse_requirement_line line) as [[name specs]|]; [|reflexivity].
  destruct (pypi_version specs). cbn [fst snd]. now rewrite app_assoc.
Qed.

Lemma parse_pip_lines_frame (deps0 : list DependentPackage)
    (lines : list pystr) :
  forall st, fold_left pip_line lines (frame deps0 st)
             = frame deps0 (fold_left pip_line lines st).
Proof.
  induction lines as [|line lines IH]; cbn [fold_left]; intros st;
    [reflexivity|].
  now rewrite parse_pip_line_frame, IH.
Qed.

Lemma parse_dep_frame (deps0 : list DependentPackage) (st : flat_state)
    (dep : dependency) :
  one_dep (frame deps0 st) dep
  = st' <- one_dep st dep ;; Ok (frame deps0 st').
Proof.
  destruct dep as [dep|dep|]; simpl.
  - apply parse_str_dep_frame.
  - now rewrite parse_pip_lines_frame.
  - reflexivity.
Qed.

Lemma parse_deps_frame (deps0 : list DependentPackage)
    (dependencies : list dependency) :
  forall st, all_deps (frame deps0 st) dependencies
             = st' <- all_deps st dependencies ;; Ok (frame deps0 st').
Proof.
  induction dependencies as [|dep rest IH]; simpl; intros st;
    [reflexivity|].
  rewrite parse_dep_frame.
  destruct (one_dep st dep) as [st1|]; cbn [bind]; [|reflexivity].
  apply IH.
Qed.

Lemma parse_deps_app (xs ys : list dependency) :
  forall st, all_deps st (xs ++ ys)
             = st' <- all_deps st xs ;; all_deps st' ys.
Proof.
  induction xs as [|x xs IH]; simpl; intros st; [reflexivity|].
  destruct (one_dep st x) as [st1|]; cbn [bind]; [|reflexivity].
  apply IH.
Qed.

Lemma get_conda_yaml_dependencies_app (xs ys : list dependency)
    (out : list DependentPackage) :
  flat_deps (xs ++ ys) = Ok out ->
  exists version out1 version' out2,
    all_deps (Unbound, []) xs = Ok (version, out1)
    /\ all_deps (version, []) ys = Ok (version', out2)
    /\ out = out1 ++ out2.
Proof.
  unfold get_conda_yaml_dependencies. intros H.
  apply bind_ok in H as [[v' o] [E H]]. inversion H; subst.
  rewrite parse_deps_app in E.
  apply bind_ok in E as [[v out1] [E1 E2]].
  assert (F : (v, out1) = frame out1 (v, []))
    by (unfold frame; simpl; now rewrite app_nil_r).
  rewrite F, parse_deps_frame in E2.
  apply bind_ok in E2 as [[v2 out2] [E2 E3]]. inversion E3; subst.
  exists v, out1, v', out2. repeat split; assumption.
Qed.

End Facts.

End CondaYamlFacts.

(** * [str.replace] *)

Section ReplaceFacts.

Lemma replace_from_skip (old new u s : pystr) :
  replace_from old new (List.length u) (u ++ s) = replace_from old new 0 s.
Proof.
  induction u as [|c u IH]; simpl; [|assumption].
  destruct s; reflexivity.
Qed.

(** An occurrence at the front is replaced. *)
Lemma replace_from_match (old new s : pystr) :
  old <> [] ->
  replace_from old new 0 (old ++ s) = new ++ replace_from old new 0 s.
Proof.
  intros Hold. destruct old as [|c o]; [congruence|].
  change ((c :: o) ++ s) with (c :: (o ++ s)). cbn [replace_from].
  change (c :: o ++ s) with ((c :: o) ++ s).
  rewrite startswith_app. f_equal.
  replace (List.length (c :: o) - 1) with (List.length o) by (simpl; lia).
  apply replace_from_skip.
Qed.

Lemma replace_from_nomatch (old new : pystr) (c : ascii) (s : pystr) :
  startswith old (c :: s) = false ->
  replace_from old new 0 (c :: s) = c :: replace_from old new 0 s.
Proof. intros H. cbn [replace_from]. now rewrite H. Qed.

(** Text without the first character of [old] is copied. *)
Lemma replace_from_copy (old new : pystr) (h : ascii) (u s : pystr) :
  hd_error old = Some h -> ~ In h u ->
  replace_from old new 0 (u ++ s) = u ++ replace_from old new 0 s.
Proof.
  intros Hh Hu. destruct old as [|h' o]; [discriminate|].
  inversion Hh; subst h'.
  induction u as [|c u IH]; [reflexivity|].
  simpl app. rewrite replace_from_nomatch.
  - rewrite IH; [reflexivity|]. intros Hin; apply Hu; now right.
  - apply startswith_head. intros ->. apply Hu. now left.
Qed.

Lemma replace_from_none (old new s : pystr) :
  contains old s = false -> replace_from old new 0 s = s.
Proof.
  induction s as [|c s IH]; intros H; [reflexivity|].
  rewrite contains_cons in H. apply orb_false_iff in H as [H1 H2].
  rewrite replace_from_nomatch by assumption. now rewrite IH.
Qed.

Lemma replace_none (old new s : pystr) :
  contains old s = false -> replace old new s = s.
Proof.
  intros H. unfold replace. destruct old as [|h o]; [reflexivity|].
  now apply replace_from_none.
Qed.

Lemma replace_nonempty (old new s : pystr) :
  old <> [] -> replace old new s = replace_from old new 0 s.
Proof. unfold replace. destruct old; [congruence | reflexivity]. Qed.

End ReplaceFacts.

(** A match that ends with the string ends with its last character. *)
Lemma startswith_snoc (old x : pystr) (c : ascii) :
  startswith old (x ++ [c]) = true ->
  List.length old <= List.length x \/ old = x ++ [c].
Proof.
  revert old; induction x as [|d x IH]; intros old H.
  - destruct old as [|h [|h' o]]; simpl in *.
    + left; lia.
    + right. rewrite andb_true_r in H.
      apply Ascii.eqb_eq in H. now subst.
    + rewrite andb_false_r in H. discriminate.
  - destruct old as [|h o]; [left; simpl; lia|].
    simpl in H. apply andb_true_iff in H as [Hh Ho].
    apply Ascii.eqb_eq in Hh. subst h.
    destruct (IH _ Ho) as [L| ->]; [left; simpl; lia | right; reflexivity].
Qed.

(** [replace] keeps a final character that does not end [old]. *)
Lemma replace_from_snoc (old new : pystr) (c : ascii) :
  last old c <> c -> old <> [] ->
  forall (s : pystr) (k : nat),
    k <= List.length s ->
    exists r, replace_from old new k (s ++ [c]) = r ++ [c].
Proof.
  intros Hlast Hold. induction s as [|d s IH]; intros k Hk.
  - assert (k = 0) by (simpl in Hk; lia). subst k.
    exists []. simpl app. rewrite replace_from_nomatch; [reflexivity|].
    destruct (startswith old [c]) eqn:E; [|reflexivity].
    destruct (startswith_snoc old [] c E) as [L| ->].
    + destruct old; [congruence | simpl in L; lia].
    + now elim Hlast.
  - simpl app. destruct k as [|k].
    + cbn [replace_from].
      destruct (startswith old (d :: s ++ [c])) eqn:E.
      * destruct (startswith_snoc old (d :: s) c E) as [L| ->].
        -- destruct (IH (List.length old - 1)) as [r Hr];
             [simpl in L; destruct old; simpl in *; lia|].
           exists (new ++ r). now rewrite Hr, app_assoc.
        -- elim Hlast. change (d :: s ++ [c]) with ((d :: s) ++ [c]).
           apply last_last.
      * destruct (IH 0) as [r Hr]; [lia|].
        exists (d :: r). now rewrite Hr.
    + cbn [replace_from]. apply IH. simpl in Hk. lia.
Qed.

Lemma replace_snoc (old new s : pystr) (c : ascii) :
  last old c <> c ->
  exists r, replace old new (s ++ [c]) = r ++ [c].
Proof.
  intros H. unfold replace. destruct old as [|h o] eqn:E; [now exists s|].
  rewrite <- E in *. apply replace_from_snoc; [assumption| |lia].
  subst old; discriminate.
Qed.

(** * Template resolution *)

Module TemplateFacts.

(** ** Lines as text and template expressions *)

Lemma lacks_In (chars : string) (s : pystr) (c : ascii) :
  lacks chars s = true -> In c (str chars) -> ~ In c s.
Proof.
  unfold lacks. rewrite forallb_forall. intros H Hc Hs.
  specialize (H c Hs). apply negb_true_iff in H.
  apply mem_char_In in Hc. congruence.
Qed.

Lemma lacks_app (chars : string) (a b : pystr) :
  lacks chars (a ++ b) = lacks chars a && lacks chars b.
Proof. unfold lacks. apply forallb_app. Qed.

Lemma lacks_weaken (chars chars' : string) (s : pystr) :
  (forall c, In c (str chars') -> In c (str chars)) ->
  lacks chars s = true -> lacks chars' s = true.
Proof.
  unfold lacks. rewrite !forallb_forall. intros Hsub H c Hc.
  specialize (H c Hc). apply negb_true_iff in H. apply negb_true_iff.
  destruct (mem_char c (str chars')) eqn:E; [|reflexivity].
  apply mem_char_In in E. apply Hsub in E. apply mem_char_In in E.
  congruence.
Qed.

Lemma render_cons (p : piece) (ps : list piece) :
  render (p :: ps) = render_piece p ++ render ps.
Proof. reflexivity. Qed.

Lemma render_app (ps qs : list piece) :
  render (ps ++ qs) = render ps ++ render qs.
Proof. unfold render. now rewrite map_app, concat_app. Qed.

(** ** Matching an expression *)

(** Two strings without [}] that are followed by [ }}] at the same place
    are the same. *)
Lemma body_match (b b' rest : pystr) :
  ~ In "}"%char b -> ~ In "}"%char b' ->
  startswith (b ++ str " }}") (b' ++ str " }}" ++ rest) = true ->
  b = b'.
Proof.
  change (str " }}") with [" "; "}"; "}"]%char.
  revert b'; induction b as [|c b IH]; intros b' Hb Hb' H.
  - destruct b' as [|c' b']; [reflexivity|].
    cbn [app] in H. apply startswith_cons_inv in H as [<- H].
    destruct b' as [|c'' b']; cbn [app] in H;
      apply startswith_cons_inv in H as [E _].
    + discriminate E.
    + subst c''. elim Hb'. right; now left.
  - destruct b' as [|c' b']; cbn [app] in H;
      apply startswith_cons_inv in H as [E H].
    + subst c. destruct b as [|d b]; cbn [app] in H;
        apply startswith_cons_inv in H as [E _].
      * discriminate E.
      * subst d. elim Hb. right; now left.
    + subst c'. f_equal.
      apply IH; [| |assumption]; intros Hin;
        [apply Hb | apply Hb']; now right.
Qed.

Lemma pattern_match (b b' rest : pystr) :
  ~ In "}"%char b -> ~ In "}"%char b' ->
  startswith (pattern b) (pattern b' ++ rest) = true -> b = b'.
Proof.
  intros Hb Hb' H. unfold pattern in H. rewrite <- !app_assoc in H.
  simpl in H. apply body_match with (rest := rest); [assumption..|exact H].
Qed.

Lemma pattern_nonempty (b : pystr) : pattern b <> [].
Proof. discriminate. Qed.

Lemma pattern_hd (b : pystr) : hd_error (pattern b) = Some "{"%char.
Proof. reflexivity. Qed.

(** An expression that is not the one looked for is copied. *)
Lemma replace_from_other (b b' value rest : pystr) :
  ~ In "}"%char b -> ~ In "}"%char b' -> ~ In "{"%char b' -> b <> b' ->
  replace_from (pattern b) value 0 (pattern b' ++ rest)
  = pattern b' ++ replace_from (pattern b) value 0 rest.
Proof.
  intros Hb Hb' Ho Hne.
  assert (N : startswith (pattern b) (pattern b' ++ rest) = false).
  { destruct (startswith (pattern b) (pattern b' ++ rest)) eqn:E;
      [|reflexivity].
    elim Hne. eapply pattern_match; eassumption. }
  set (tail := " "%char :: b' ++ str " }}").
  change (pattern b') with ("{"%char :: "{"%char :: tail) in *.
  cbn [app] in *.
  rewrite replace_from_nomatch by exact N.
  rewrite replace_from_nomatch by reflexivity.
  rewrite (replace_from_copy _ _ _ _ (pattern_hd b)); [reflexivity|].
  subst tail. intros [H|H]; [discriminate|].
  apply in_app_or in H as [H|H]; [contradiction|].
  simpl in H. intuition discriminate.
Qed.

(** [str.replace] of an expression, on pieces. *)
Lemma replace_render (b value : pystr) (ps : list piece) :
  ~ In "}"%char b -> clean ps = true ->
  replace (pattern b) value (render ps)
  = render (map (subst_piece b value) ps).
Proof.
  intros Hb Hc. rewrite replace_nonempty by apply pattern_nonempty.
  induction ps as [|p ps IH]; [reflexivity|].
  simpl in Hc. apply andb_true_iff in Hc as [Hp Hc].
  cbn [map]. rewrite !render_cons.
  destruct p as [t|b']; cbn [render_piece subst_piece].
  - rewrite (replace_from_copy _ _ _ _ (pattern_hd b)), IH by
      (first [assumption | eapply lacks_In; [eassumption | now left]]).
    reflexivity.
  - destruct (str_eqb b b') eqn:E; cbn [render_piece].
    + apply str_eqb_eq in E. subst b'.
      rewrite replace_from_match, IH by
        (first [assumption | apply pattern_nonempty]).
      reflexivity.
    + apply str_eqb_neq in E.
      rewrite replace_from_other, IH; try assumption; try reflexivity.
      * eapply lacks_In; [eassumption | right; now left].
      * eapply lacks_In; [eassumption | now left].
Qed.

(** ** [str.lower] and the braces *)

Lemma lower_char_brace (x c : ascii) :
  In x (str "{|}") -> Ascii.eqb (lower_char c) x = Ascii.eqb c x.
Proof.
  intros H. simpl in H. destruct H as [H|[H|[H|H]]]; try contradiction;
    subst x; destruct c as [[] [] [] [] [] [] [] []]; reflexivity.
Qed.

Lemma lower_lacks (chars : string) (s : pystr) :
  (forall x, In x (str chars) -> In x (str "{|}")) ->
  lacks chars (lower s) = lacks chars s.
Proof.
  intros Hsub. unfold lacks, lower.
  induction s as [|c s IH]; [reflexivity|].
  cbn [map forallb]. rewrite IH. f_equal. f_equal. unfold mem_char.
  revert Hsub. generalize (str chars) as cs.
  induction cs as [|x xs IHx]; intros Hsub; [reflexivity|].
  cbn [existsb]. rewrite lower_char_brace by (apply Hsub; now left).
  rewrite IHx; [reflexivity|]. intros y Hy. apply Hsub. now right.
Qed.

(** ** The loop over the variables, on pieces *)

Lemma subst_piece_clean (body value : pystr) (ps : list piece) :
  lacks "{" value = true -> clean ps = true ->
  clean (map (subst_piece body value) ps) = true.
Proof.
  intros Hv. unfold clean. rewrite !forallb_forall. intros H p Hp.
  apply in_map_iff in Hp as [q [<- Hq]]. specialize (H q Hq).
  destruct q as [t|b]; simpl; [assumption|].
  destruct (str_eqb body b); assumption.
Qed.

Lemma substitute_pieces_clean (ps : list piece) (kv : pystr * pystr) :
  var_ok kv = true -> clean ps = true ->
  clean (substitute_pieces ps kv) = true.
Proof.
  destruct kv as [k v]. unfold var_ok, substitute_pieces. cbn [fst snd].
  intros H Hc. apply andb_true_iff in H as [_ Hv].
  destruct (contains (str "|lower") (render ps));
    apply subst_piece_clean; try assumption.
  rewrite lower_lacks; [assumption|].
  intros x [<-|[]]. now left.
Qed.

Lemma substitute_variable_render (ps : list piece) (kv : pystr * pystr) :
  var_ok kv = true -> clean ps = true ->
  substitute_variable (render ps) kv = render (substitute_pieces ps kv).
Proof.
  destruct kv as [k v]. unfold var_ok, substitute_variable, substitute_pieces.
  cbn [fst snd]. intros H Hc. apply andb_true_iff in H as [Hk Hv].
  assert (Hk' : ~ In "}"%char k) by (eapply lacks_In; [eassumption | now left]).
  destruct (contains (str "|lower") (render ps)).
  - replace (str "{{ " ++ k ++ str "|lower" ++ str " }}")
      with (pattern (k ++ str "|lower"))
      by (unfold pattern; now rewrite <- app_assoc).
    apply replace_render; [|assumption].
    intros Hin. apply in_app_or in Hin as [Hin|Hin]; [contradiction|].
    simpl in Hin. intuition discriminate.
  - now apply replace_render.
Qed.

Lemma substitute_loop_render (variables : dict pystr) :
  forallb var_ok variables = true ->
  forall ps, clean ps = true ->
    fold_left substitute_variable variables (render ps)
    = render (fold_left substitute_pieces variables ps).
Proof.
  induction variables as [|kv variables IH]; intros Hv ps Hc;
    [reflexivity|].
  cbn [forallb] in Hv. apply andb_true_iff in Hv as [Hkv Hv].
  cbn [fold_left]. rewrite substitute_variable_render by assumption.
  apply IH; [assumption|]. now apply substitute_pieces_clean.
Qed.

Lemma substitute_loop_clean (variables : dict pystr) :
  forallb var_ok variables = true ->
  forall ps, clean ps = true ->
    clean (fold_left substitute_pieces variables ps) = true.
Proof.
  induction variables as [|kv variables IH]; intros Hv ps Hc;
    [assumption|].
  cbn [forallb] in Hv. apply andb_true_iff in Hv as [Hkv Hv].
  cbn [fold_left]. apply IH; [assumption|].
  now apply substitute_pieces_clean.
Qed.

(** A line with an expression passes the test before the loop. *)
Lemma render_expr (ps : list piece) (b : pystr) :
  In (Expr b) ps ->
  contains (str "{{") (render ps) = true
  /\ contains (str "}}") (render ps) = true.
Proof.
  intros H. apply in_split in H as [ps1 [ps2 ->]].
  rewrite render_app, render_cons. cbn [render_piece]. split.
  - apply contains_app_r, contains_app_l.
    apply (contains_here (str "{{") [] (" "%char :: b ++ str " }}")).
  - apply contains_app_r, contains_app_l. unfold pattern.
    replace (str "{{ " ++ b ++ str " }}")
      with ((str "{{ " ++ b ++ [" "%char]) ++ str "}}" ++ [])
      by (now rewrite <- !app_assoc).
    apply contains_here.
Qed.

Lemma existsb_is_expr (ps : list piece) :
  existsb is_expr ps = true -> exists b, In (Expr b) ps.
Proof.
  rewrite existsb_exists. intros [[t|b] [Hin H]]; [discriminate|].
  now exists b.
Qed.

(** Without an expression the loop changes nothing. *)
Lemma subst_piece_text (body value : pystr) (ps : list piece) :
  existsb is_expr ps = false -> map (subst_piece body value) ps = ps.
Proof.
  induction ps as [|[t|b] ps IH]; simpl; intros H;
    [reflexivity | now rewrite IH | discriminate].
Qed.

Lemma substitute_loop_text (variables : dict pystr) (ps : list piece) :
  existsb is_expr ps = false ->
  fold_left substitute_pieces variables ps = ps.
Proof.
  intros H. induction variables as [|[k v] variables IH]; [reflexivity|].
  cbn [fold_left]. unfold substitute_pieces at 2.
  destruct (contains (str "|lower") (render ps));
    now rewrite subst_piece_text.
Qed.

(** [substitute], on pieces. *)
Theorem substitute_render (variables : dict pystr) (ps : list piece) :
  forallb var_ok variables = true -> clean ps = true ->
  substitute variables (render ps)
  = render (fold_left substitute_pieces variables ps).
Proof.
  intros Hv Hc. unfold substitute.
  destruct (existsb is_expr ps) eqn:E.
  - apply existsb_is_expr in E as [b Hb].
    destruct (render_expr _ _ Hb) as [-> ->]. cbn [andb].
    now apply substitute_loop_render.
  - rewrite substitute_loop_text by assumption.
    destruct (_ && _); [|reflexivity].
    rewrite substitute_loop_render by assumption.
    now rewrite substitute_loop_text.
Qed.

(** ** Expressions that name no variable *)

Lemma subst_piece_other (body value b : pystr) (ps : list piece) :
  str_eqb body b = false -> In (Expr b) ps ->
  In (Expr b) (map (subst_piece body value) ps).
Proof.
  intros E H. apply in_map_iff. exists (Expr b). split; [|assumption].
  simpl. now rewrite E.
Qed.

Lemma substitute_loop_unmatched (variables : dict pystr) (b : pystr) :
  unmatched variables b = true ->
  forall ps, In (Expr b) ps ->
             In (Expr b) (fold_left substitute_pieces variables ps).
Proof.
  induction variables as [|[k v] variables IH]; intros Hu ps H;
    [assumption|].
  cbn [unmatched forallb fst] in Hu.
  apply andb_true_iff in Hu as [Hkv Hu].
  apply andb_true_iff in Hkv as [H1 H2].
  apply negb_true_iff in H1, H2.
  cbn [fold_left]. apply IH; [assumption|]. unfold substitute_pieces.
  destruct (contains (str "|lower") (render ps));
    now apply subst_piece_other.
Qed.

(** The line still holds [{{] after the loop. *)
Lemma substitute_unmatched (variables : dict pystr) (ps : list piece)
    (b : pystr) :
  forallb var_ok variables = true -> clean ps = true ->
  In (Expr b) ps -> unmatched variables b = true ->
  contains (str "{{") (substitute variables (render ps)) = true.
Proof.
  intros Hv Hc Hb Hu. rewrite substitute_render by assumption.
  eapply render_expr. eapply substitute_loop_unmatched; eassumption.
Qed.

(** ** What one line gives *)

Lemma cleaned_yaml_lines_eq (variables : dict pystr) (lines : list pystr) :
  cleaned_yaml_lines (yaml_lines variables lines)
  = flat_map (resolve_line variables) lines.
Proof.
  induction lines as [|line lines IH]; [reflexivity|].
  cbn [yaml_lines flat_map]. unfold resolve_line at 1.
  destruct line as [|c line]; [exact IH|].
  destruct (is_declaration (strip (c :: line))); [exact IH|].
  unfold cleaned_yaml_lines in *. cbn [filter].
  destruct (contains (str "{{") (substitute variables (c :: line)));
    cbn [negb app]; now rewrite IH.
Qed.

Lemma resolve_eq (variables : dict pystr) (text : pystr) :
  resolve variables text
  = join (flat_map (resolve_line variables) (readlines text)).
Proof. unfold resolve. now rewrite cleaned_yaml_lines_eq. Qed.

Lemma resolve_line_clear (variables : dict pystr) (line l : pystr) :
  In l (resolve_line variables line) -> contains (str "{{") l = false.
Proof.
  unfold resolve_line. destruct line as [|c line]; [intros []|].
  destruct (is_declaration _); [intros []|].
  destruct (contains (str "{{") _) eqn:E; [intros []|].
  intros [<-|[]]. exact E.
Qed.

(** A line without [{{] goes through the loop unchanged. *)
Lemma substitute_clear (variables : dict pystr) (line : pystr) :
  contains (str "{{") line = false -> substitute variables line = line.
Proof. intros H. unfold substitute. now rewrite H. Qed.

Lemma resolve_line_keep (variables : dict pystr) (line : pystr) :
  line <> [] -> is_declaration (strip line) = false ->
  contains (str "{{") line = false ->
  resolve_line variables line = [line].
Proof.
  intros Hne Hd Hc. unfold resolve_line.
  destruct line as [|c line]; [congruence|].
  now rewrite Hd, substitute_clear, Hc.
Qed.

(** ** The lines of a text *)

Lemma lines_from_join (s cur : pystr) :
  join (lines_from cur s) = rev cur ++ s.
Proof.
  revert cur; induction s as [|c s IH]; intros cur; cbn [lines_from].
  - destruct cur; simpl; now rewrite ?app_nil_r.
  - destruct (Ascii.eqb c newline).
    + unfold join in *. cbn [List.concat]. rewrite IH. simpl.
      now rewrite <- !app_assoc.
    + rewrite IH. simpl. now rewrite <- app_assoc.
Qed.

Lemma join_readlines (text : pystr) : join (readlines text) = text.
Proof. apply lines_from_join. Qed.

Lemma lines_from_nonempty (s cur l : pystr) :
  In l (lines_from cur s) -> l <> [].
Proof.
  revert cur; induction s as [|c s IH]; intros cur; cbn [lines_from].
  - destruct cur as [|d cur]; [intros []|]. intros [<-|[]] E.
    apply (f_equal (@List.length ascii)) in E.
    rewrite length_rev in E. discriminate.
  - destruct (Ascii.eqb c newline).
    + intros [<-|H]; [|now apply IH in H]. intros E.
      apply (f_equal (@List.length ascii)) in E.
      rewrite length_rev in E. discriminate.
    + apply IH.
Qed.

(** Every line but possibly the last ends with a newline. *)
Lemma lines_from_shape (s cur : pystr) :
  exists rs tail,
    lines_from cur s = map with_newline rs ++ tail
    /\ (tail = [] \/ exists t, tail = [t]).
Proof.
  revert cur; induction s as [|c s IH]; intros cur; cbn [lines_from].
  - exists [], (match cur with [] => [] | _ :: _ => [rev cur] end).
    split; [reflexivity|]. destruct cur; [now left | right; eauto].
  - destruct (Ascii.eqb c newline) eqn:E.
    + apply Ascii.eqb_eq in E. subst c.
      destruct (IH []) as [rs [tail [-> Ht]]].
      exists (rev cur :: rs), tail. split; [|assumption].
      reflexivity.
    + apply IH.
Qed.

(** ** [{{] in a text made of lines *)

Lemma contains2_app (x y : ascii) (a b : pystr) :
  contains [x; y] (a ++ b) = true ->
  contains [x; y] a = true \/ contains [x; y] b = true
  \/ ((exists a', a = a' ++ [x]) /\ exists b', b = y :: b').
Proof.
  induction a as [|c a IH]; intros H.
  - right; now left.
  - simpl app in H. rewrite contains_cons in H.
    apply orb_true_iff in H as [H|H].
    + apply startswith_cons_inv in H as [<- H].
      destruct a as [|d a].
      * destruct b as [|d b]; [discriminate|].
        apply startswith_cons_inv in H as [<- _].
        right; right. split; [now exists [] | now exists b].
      * simpl app in H. apply startswith_cons_inv in H as [<- _].
        left. simpl. now rewrite !Ascii.eqb_refl.
    + destruct (IH H) as [H1|[H2|[[a' ->] Hb]]].
      * left. rewrite contains_cons, H1. apply orb_true_r.
      * right; now left.
      * right; right. split; [now exists (c :: a') | assumption].
Qed.

Lemma in_join_contains (sub l : pystr) (ls : list pystr) :
  In l ls -> contains sub l = true -> contains sub (join ls) = true.
Proof.
  intros H Hc. apply in_split in H as [l1 [l2 ->]].
  unfold join. rewrite concat_app. cbn [List.concat].
  now apply contains_app_r, contains_app_l.
Qed.

(** Lines without [{{] that end with a newline join to a text without
    [{{]. *)
Lemma join_clear (ls : list pystr) :
  (forall l, In l ls ->
             contains (str "{{") l = false /\ exists r, l = with_newline r) ->
  contains (str "{{") (join ls) = false
  /\ (join ls = [] \/ exists r, join ls = with_newline r).
Proof.
  induction ls as [|l ls IH]; intros H.
  - split; [reflexivity | now left].
  - destruct (H l (or_introl eq_refl)) as [Hl [r Hr]].
    destruct IH as [Hc Hj]; [intros l' Hl'; apply H; now right|].
    unfold join in *. cbn [List.concat]. split.
    + destruct (contains (str "{{") (l ++ List.concat ls)) eqn:E;
        [|reflexivity].
      apply (contains2_app "{" "{") in E as [E|[E|[[a' Ha] _]]].
      * change [ "{"%char; "{"%char ] with (str "{{") in E. congruence.
      * change [ "{"%char; "{"%char ] with (str "{{") in E. congruence.
      * rewrite Hr in Ha. apply app_inj_tail in Ha as [_ Ha].
        discriminate Ha.
    + right. destruct Hj as [->|[r' ->]].
      * exists r. now rewrite app_nil_r.
      * exists (l ++ r'). unfold with_newline. now rewrite app_assoc.
Qed.

(** ** The loop keeps the final newline *)

Lemma pattern_last (b : pystr) (c : ascii) : last (pattern b) c = "}"%char.
Proof.
  unfold pattern.
  replace (str "{{ " ++ b ++ str " }}")
    with ((str "{{ " ++ b ++ str " }") ++ ["}"%char])
    by (now rewrite <- !app_assoc).
  apply last_last.
Qed.

Lemma substitute_variable_newline (r : pystr) (kv : pystr * pystr) :
  exists r', substitute_variable (with_newline r) kv = with_newline r'.
Proof.
  destruct kv as [k v]. unfold substitute_variable, with_newline.
  destruct (contains (str "|lower") (r ++ [newline])).
  - replace (str "{{ " ++ k ++ str "|lower" ++ str " }}")
      with (pattern (k ++ str "|lower"))
      by (unfold pattern; now rewrite <- app_assoc).
    apply replace_snoc. now rewrite pattern_last.
  - apply (replace_snoc (pattern k)). now rewrite pattern_last.
Qed.

Lemma substitute_newline (variables : dict pystr) (r : pystr) :
  exists r', substitute variables (with_newline r) = with_newline r'.
Proof.
  unfold substitute. destruct (_ && _); [|now exists r].
  revert r. induction variables as [|kv variables IH]; intros r.
  - now exists r.
  - cbn [fold_left].
    destruct (substitute_variable_newline r kv) as [r1 ->]. apply IH.
Qed.

Lemma resolve_line_newline (variables : dict pystr) (r l : pystr) :
  In l (resolve_line variables (with_newline r)) ->
  exists r', l = with_newline r'.
Proof.
  unfold resolve_line. destruct (with_newline r) as [|c w] eqn:E;
    [intros []|]. rewrite <- E.
  destruct (is_declaration _); [intros []|].
  destruct (contains (str "{{") _); [intros []|].
  intros [<-|[]]. apply substitute_newline.
Qed.

(** The resolved text holds no [{{]. *)
Lemma resolve_clear (variables : dict pystr) (text : pystr) :
  contains (str "{{") (resolve variables text) = false.
Proof.
  rewrite resolve_eq. unfold readlines.
  destruct (lines_from_shape text []) as [rs [tail [-> Ht]]].
  rewrite flat_map_app. unfold join. rewrite concat_app.
  destruct (join_clear (flat_map (resolve_line variables)
                                 (map with_newline rs))) as [Hx Hnl].
  { intros l Hl. apply in_flat_map in Hl as [line [Hline Hl]].
    split; [eapply resolve_line_clear; eassumption|].
    apply in_map_iff in Hline as [r [<- _]].
    eapply resolve_line_newline; eassumption. }
  assert (Hy : contains (str "{{")
                 (List.concat (flat_map (resolve_line variables) tail))
               = false).
  { destruct Ht as [->|[t ->]]; [reflexivity|].
    cbn [flat_map]. rewrite app_nil_r.
    destruct (resolve_line variables t) as [|l [|l' ls]] eqn:E.
    - reflexivity.
    - cbn [List.concat]. rewrite app_nil_r.
      apply (resolve_line_clear variables t). rewrite E. now left.
    - exfalso. unfold resolve_line in E. cbv zeta in E.
      destruct t; [discriminate|].
      destruct (is_declaration _); [discriminate|].
      destruct (contains (str "{{") (substitute _ _)); discriminate. }
  unfold join in *.
  destruct (contains (str "{{") (_ ++ _)) eqn:E; [|reflexivity].
  apply (contains2_app "{" "{") in E as [E|[E|[[a' Ha] _]]].
  - change [ "{"%char; "{"%char ] with (str "{{") in E. congruence.
  - change [ "{"%char; "{"%char ] with (str "{{") in E. congruence.
  - destruct Hnl as [Hnl|[r Hnl]]; rewrite Hnl in Ha.
    + destruct a'; discriminate.
    + apply app_inj_tail in Ha as [_ Ha]. discriminate Ha.
Qed.

(** A text without [{{] whose lines are not declarations is left as it
    is. *)
Lemma resolve_fixed (variables : dict pystr) (text : pystr) :
  contains (str "{{") text = false ->
  (forall line, In line (readlines text) ->
                is_declaration (strip line) = false) ->
  resolve variables text = text.
Proof.
  intros Hc Hd. rewrite resolve_eq.
  rewrite <- (join_readlines text) at 2.
  assert (H : forall line, In line (readlines text) ->
                           resolve_line variables line = [line]).
  { intros line Hl. apply resolve_line_keep.
    - eapply lines_from_nonempty; exact Hl.
    - now apply Hd.
    - destruct (contains (str "{{") line) eqn:E; [|reflexivity].
      rewrite <- (join_readlines text) in Hc.
      now rewrite (in_join_contains _ _ _ Hl E) in Hc. }
  clear Hc Hd. induction (readlines text) as [|l ls IH]; [reflexivity|].
  cbn [flat_map]. rewrite H by now left. unfold join in *.
  cbn [List.concat app]. f_equal. apply IH.
  intros line Hl. apply H. now right.
Qed.

(** ** References to variables *)

Lemma forallb_map {A B} (f : B -> bool) (g : A -> B) (l : list A) :
  forallb f (map g l) = forallb (fun x => f (g x)) l.
Proof. induction l as [|x l IH]; simpl; [reflexivity | now rewrite IH]. Qed.

Lemma lacks_sub (chars chars' : string) (s : pystr) :
  lacks chars s = true ->
  forallb (fun c => mem_char c (str chars)) (str chars') = true ->
  lacks chars' s = true.
Proof.
  intros H Hsub. apply lacks_weaken with (chars := chars); [|assumption].
  rewrite forallb_forall in Hsub. intros c Hc.
  apply mem_char_In. now apply Hsub.
Qed.

Lemma proper_var_ok (variables : dict pystr) :
  forallb proper_var variables = true -> forallb var_ok variables = true.
Proof.
  rewrite !forallb_forall. intros H kv Hkv. specialize (H kv Hkv).
  unfold proper_var in H. apply andb_true_iff in H as [Hk Hv].
  unfold var_ok. apply andb_true_iff. split.
  - now apply (lacks_sub "}|" "}").
  - now apply (lacks_sub "{|" "{").
Qed.

Lemma proper_clean (rs : list ref) :
  forallb proper_ref rs = true -> clean (map to_piece rs) = true.
Proof.
  unfold clean. rewrite forallb_map. rewrite !forallb_forall.
  intros H r Hr. specialize (H r Hr).
  destruct r as [t|n|n]; cbn [to_piece clean_piece proper_ref] in *.
  - now apply (lacks_sub "{|" "{").
  - now apply (lacks_sub "{}|" "{}").
  - rewrite lacks_app. apply andb_true_iff. split; [|reflexivity].
    now apply (lacks_sub "{}|" "{}").
Qed.

(** Without [|lower] references the line holds no [|]. *)
Lemma render_refs_bar (rs : list ref) :
  forallb proper_ref rs = true -> existsb is_lower rs = false ->
  ~ In "|"%char (render_refs rs).
Proof.
  unfold render_refs. induction rs as [|r rs IH]; [intros _ _ []|].
  cbn [forallb existsb map]. intros Hp Hl.
  apply andb_true_iff in Hp as [Hr Hp].
  apply orb_false_iff in Hl as [Hlr Hl].
  rewrite render_cons. intros Hin. apply in_app_or in Hin as [Hin|Hin];
    [|now apply IH].
  destruct r as [t|n|n]; [| |discriminate]; cbn in Hr, Hin.
  - revert Hin. eapply lacks_In; [exact Hr | right; now left].
  - destruct Hin as [E|[E|[E|Hin]]]; try discriminate.
    apply in_app_or in Hin as [Hin|Hin].
    + revert Hin. eapply lacks_In; [exact Hr | right; right; now left].
    + simpl in Hin. intuition discriminate.
Qed.

Lemma contains_lower (rs : list ref) :
  forallb proper_ref rs = true ->
  contains (str "|lower") (render_refs rs) = existsb is_lower rs.
Proof.
  intros Hp. destruct (existsb is_lower rs) eqn:E.
  - apply existsb_exists in E as [[t|n|n] [Hin E]]; try discriminate.
    apply in_split in Hin as [r1 [r2 ->]].
    unfold render_refs. rewrite map_app, render_app. cbn [map to_piece].
    rewrite render_cons. cbn [render_piece].
    apply contains_app_r, contains_app_l. unfold pattern.
    replace (str "{{ " ++ (n ++ str "|lower") ++ str " }}")
      with ((str "{{ " ++ n) ++ str "|lower" ++ str " }}")
      by (now rewrite <- !app_assoc).
    apply contains_here.
  - destruct (contains (str "|lower") (render_refs rs)) eqn:C;
      [|reflexivity].
    exfalso. apply (render_refs_bar rs Hp E).
    eapply contains_In; [exact C | now left].
Qed.

Lemma str_eqb_app_r (a b c : pystr) :
  str_eqb (a ++ c) (b ++ c) = str_eqb a b.
Proof.
  destruct (str_eqb a b) eqn:E.
  - apply str_eqb_eq in E. subst. apply str_eqb_refl.
  - apply str_eqb_neq. apply str_eqb_neq in E. intros H.
    now apply app_inv_tail in H.
Qed.

Lemma str_eqb_bar_l (a b : pystr) :
  lacks "{}|" b = true -> str_eqb (a ++ str "|lower") b = false.
Proof.
  intros H. apply str_eqb_neq. intros <-.
  eapply lacks_In with (c := "|"%char) in H; [|right; right; now left].
  apply H. apply in_or_app. right. now left.
Qed.

Lemma str_eqb_bar_r (a b : pystr) :
  lacks "}|" a = true -> str_eqb a (b ++ str "|lower") = false.
Proof.
  intros H. apply str_eqb_neq. intros ->.
  eapply lacks_In with (c := "|"%char) in H; [|right; now left].
  apply H. apply in_or_app. right. now left.
Qed.

(** The loop on pieces is the loop on references. *)
Lemma substitute_refs_pieces (rs : list ref) (kv : pystr * pystr) :
  forallb proper_ref rs = true -> proper_var kv = true ->
  substitute_pieces (map to_piece rs) kv
  = map to_piece (substitute_refs rs kv).
Proof.
  destruct kv as [k v]. intros Hp Hkv.
  unfold proper_var in Hkv. cbn [fst snd] in Hkv.
  apply andb_true_iff in Hkv as [Hk Hv].
  unfold substitute_pieces, substitute_refs.
  fold (render_refs rs). rewrite contains_lower by assumption.
  rewrite forallb_forall in Hp.
  destruct (existsb is_lower rs); rewrite !map_map; apply map_ext_in;
    intros r Hr; specialize (Hp r Hr);
    destruct r as [t|n|n]; cbn [to_piece subst_piece subst_lower subst_var];
    try reflexivity.
  - now rewrite str_eqb_bar_l.
  - rewrite str_eqb_app_r. now destruct (str_eqb k n).
  - now destruct (str_eqb k n).
  - now rewrite str_eqb_bar_r.
Qed.

Lemma substitute_refs_proper (rs : list ref) (kv : pystr * pystr) :
  forallb proper_ref rs = true -> proper_var kv = true ->
  forallb proper_ref (substitute_refs rs kv) = true.
Proof.
  destruct kv as [k v]. intros Hp Hkv.
  unfold proper_var in Hkv. cbn [fst snd] in Hkv.
  apply andb_true_iff in Hkv as [Hk Hv].
  assert (Hlv : lacks "{|" (lower v) = true).
  { rewrite lower_lacks; [assumption|].
    simpl. intros x [<-|[<-|[]]]; [now left | right; now left]. }
  unfold substitute_refs.
  destruct (existsb is_lower rs); rewrite forallb_map;
    rewrite forallb_forall in *; intros r Hr; specialize (Hp r Hr);
    destruct r as [t|n|n]; cbn [subst_lower subst_var]; try assumption;
    destruct (str_eqb k n); assumption.
Qed.

Lemma substitute_refs_loop (variables : dict pystr) :
  forallb proper_var variables = true ->
  forall rs, forallb proper_ref rs = true ->
    fold_left substitute_pieces variables (map to_piece rs)
    = map to_piece (fold_left substitute_refs variables rs).
Proof.
  induction variables as [|kv variables IH]; intros Hv rs Hp;
    [reflexivity|].
  cbn [forallb] in Hv. apply andb_true_iff in Hv as [Hkv Hv].
  cbn [fold_left]. rewrite substitute_refs_pieces by assumption.
  apply IH; [assumption|]. now apply substitute_refs_proper.
Qed.

(** [substitute], on references. *)
Theorem substitute_render_refs (variables : dict pystr) (rs : list ref) :
  forallb proper_var variables = true ->
  forallb proper_ref rs = true ->
  substitute variables (render_refs rs)
  = render_refs (fold_left substitute_refs variables rs).
Proof.
  intros Hv Hp. unfold render_refs.
  rewrite substitute_render
    by (first [now apply proper_var_ok | now apply proper_clean]).
  now rewrite substitute_refs_loop.
Qed.

(** *** Lines with one kind of reference *)

Lemma str_eqb_sym (a b : pystr) : str_eqb a b = str_eqb b a.
Proof.
  destruct (str_eqb b a) eqn:E.
  - apply str_eqb_eq in E. subst. apply str_eqb_refl.
  - apply str_eqb_neq. apply str_eqb_neq in E. congruence.
Qed.

Lemma resolve_ref_var (k v : pystr) (variables : dict pystr) (r : ref) :
  is_lower r = false ->
  resolve_ref ((k, v) :: variables) r
  = resolve_ref variables (subst_var k v r).
Proof.
  destruct r as [t|n|n]; [reflexivity| |discriminate]. intros _.
  cbn [resolve_ref dict_get subst_var]. rewrite (str_eqb_sym n k).
  now destruct (str_eqb k n).
Qed.

Lemma resolve_ref_lower (k v : pystr) (variables : dict pystr) (r : ref) :
  is_plain r = false ->
  resolve_ref ((k, v) :: variables) r
  = resolve_ref variables (subst_lower k v r).
Proof.
  destruct r as [t|n|n]; [reflexivity|discriminate|]. intros _.
  cbn [resolve_ref dict_get subst_lower]. rewrite (str_eqb_sym n k).
  now destruct (str_eqb k n).
Qed.

Lemma subst_var_lower (k v : pystr) (rs : list ref) :
  existsb is_lower (map (subst_var k v) rs) = existsb is_lower rs.
Proof.
  induction rs as [|[t|n|n] rs IH]; cbn [map existsb subst_var];
    rewrite ?IH; try reflexivity.
  now destruct (str_eqb k n).
Qed.

Lemma subst_lower_plain (k v : pystr) (rs : list ref) :
  existsb is_plain (map (subst_lower k v) rs) = existsb is_plain rs.
Proof.
  induction rs as [|[t|n|n] rs IH]; cbn [map existsb subst_lower];
    rewrite ?IH; try reflexivity.
  now destruct (str_eqb k n).
Qed.

(** Only text: nothing to replace. *)
Lemma subst_text (k v : pystr) (rs : list ref) :
  existsb is_lower rs = false -> existsb is_plain rs = false ->
  map (subst_var k v) rs = map (subst_lower k v) rs.
Proof.
  induction rs as [|[t|n|n] rs IH]; cbn [map existsb is_lower is_plain orb];
    intros Hl Hp; try discriminate; [reflexivity|].
  cbn [subst_var subst_lower]. now rewrite IH.
Qed.

Lemma substitute_refs_plain (variables : dict pystr) :
  forall rs, existsb is_lower rs = false ->
    fold_left substitute_refs variables rs
    = map (resolve_ref variables) rs.
Proof.
  induction variables as [|[k v] variables IH]; intros rs Hl.
  - cbn [fold_left]. rewrite <- (map_id rs) at 1. apply map_ext.
    now intros [t|n|n].
  - cbn [fold_left substitute_refs]. rewrite Hl.
    rewrite IH by (now rewrite subst_var_lower).
    rewrite map_map. apply map_ext_in. intros r Hr. symmetry.
    apply resolve_ref_var.
    destruct (is_lower r) eqn:E; [|reflexivity].
    assert (X : existsb is_lower rs = true)
      by (apply existsb_exists; eauto). congruence.
Qed.

Lemma substitute_refs_lower (variables : dict pystr) :
  forall rs, existsb is_plain rs = false ->
    fold_left substitute_refs variables rs
    = map (resolve_ref variables) rs.
Proof.
  induction variables as [|[k v] variables IH]; intros rs Hp.
  - cbn [fold_left]. rewrite <- (map_id rs) at 1. apply map_ext.
    now intros [t|n|n].
  - cbn [fold_left substitute_refs].
    assert (E : (if existsb is_lower rs then map (subst_lower k v) rs
                 else map (subst_var k v) rs) = map (subst_lower k v) rs).
    { destruct (existsb is_lower rs) eqn:El; [reflexivity|].
      now apply subst_text. }
    rewrite E, IH by (now rewrite subst_lower_plain).
    rewrite map_map. apply map_ext_in. intros r Hr. symmetry.
    apply resolve_ref_lower.
    destruct (is_plain r) eqn:Er; [|reflexivity].
    assert (X : existsb is_plain rs = true)
      by (apply existsb_exists; eauto). congruence.
Qed.

(** *** Lines with both forms of a reference to one variable *)

Lemma subst_lower_keeps (k' v' : pystr) (r : ref) (rs : list ref) :
  subst_lower k' v' r = r -> In r rs -> In r (map (subst_lower k' v') rs).
Proof. intros E H. rewrite <- E. now apply in_map. Qed.

Lemma subst_var_keeps (k' v' : pystr) (r : ref) (rs : list ref) :
  subst_var k' v' r = r -> In r rs -> In r (map (subst_var k' v') rs).
Proof. intros E H. rewrite <- E. now apply in_map. Qed.

(** The plain reference stays while the [|lower] one is on the line, and
    the turn of the variable comes once. *)
Lemma substitute_refs_keeps_plain (k : pystr) (variables : dict pystr) :
  NoDup (dict_keys variables) ->
  forall rs,
    In (Var k) rs ->
    In (VarLower k) rs \/ ~ In k (dict_keys variables) ->
    In (Var k) (fold_left substitute_refs variables rs).
Proof.
  induction variables as [|[k' v'] variables IH]; intros Hnd rs Hv Hl;
    [assumption|].
  cbn [dict_keys map fst] in Hnd, Hl. inversion Hnd as [|x xs Hk' Hnd']; subst.
  cbn [fold_left]. unfold substitute_refs at 2.
  destruct (str_eqb k' k) eqn:E.
  - apply str_eqb_eq in E. subst k'.
    destruct Hl as [Hl|Hl]; [|elim Hl; now left].
    assert (X : existsb is_lower rs = true)
      by (apply existsb_exists; exists (VarLower k); now split).
    rewrite X. apply IH; [assumption| |now right].
    now apply subst_lower_keeps.
  - assert (Hnext : forall f,
               f (VarLower k) = VarLower k ->
               In (VarLower k) (map f rs) \/ ~ In k (dict_keys variables)).
    { intros f Hf. destruct Hl as [Hl|Hl].
      - left. rewrite <- Hf. now apply in_map.
      - right. intros Hin. apply Hl. now right. }
    destruct (existsb is_lower rs); apply IH; try assumption.
    + now apply subst_lower_keeps.
    + apply Hnext. cbn [subst_lower]. now rewrite E.
    + apply subst_var_keeps; [|assumption]. cbn [subst_var]. now rewrite E.
    + now apply Hnext.
Qed.

Lemma render_refs_var (k : pystr) (rs : list ref) :
  In (Var k) rs -> contains (pattern k) (render_refs rs) = true.
Proof.
  intros H. apply in_split in H as [r1 [r2 ->]].
  unfold render_refs. rewrite map_app, render_app. cbn [map to_piece].
  rewrite render_cons. cbn [render_piece].
  apply contains_app_r, contains_app_l.
  apply startswith_contains, startswith_iff. exists []. now rewrite app_nil_r.
Qed.

(** ** The table of [get_variables] *)

Lemma dict_set_keys {V} (k k' : pystr) (v : V) (d : dict V) :
  In k (dict_keys (dict_set k' v d)) <-> k = k' \/ In k (dict_keys d).
Proof.
  induction d as [|[k0 v0] d IH]; cbn [dict_set dict_keys map fst].
  - simpl. intuition congruence.
  - destruct (str_eqb k' k0) eqn:E; cbn [map fst In].
    + apply str_eqb_eq in E. subst k0. intuition congruence.
    + fold (dict_keys (dict_set k' v d)). fold (dict_keys d).
      rewrite IH. intuition congruence.
Qed.

Lemma dict_set_nodup {V} (k : pystr) (v : V) (d : dict V) :
  NoDup (dict_keys d) -> NoDup (dict_keys (dict_set k v d)).
Proof.
  induction d as [|[k0 v0] d IH]; cbn [dict_set dict_keys map fst];
    intros H.
  - constructor; [intros [] | constructor].
  - inversion H as [|x xs Hx Hd]; subst.
    destruct (str_eqb k k0) eqn:E; cbn [map fst].
    + apply str_eqb_eq in E. subst k0. now constructor.
    + constructor; [|now apply IH].
      fold (dict_keys (dict_set k v d)). rewrite dict_set_keys.
      intros [->|Hin]; [|contradiction].
      now rewrite str_eqb_refl in E.
Qed.

(** The names of the table are distinct. *)
Lemma get_variables_nodup (text : pystr) :
  NoDup (dict_keys (get_variables text)).
Proof.
  unfold get_variables.
  assert (G : forall lines result,
             NoDup (dict_keys result) ->
             NoDup (dict_keys (fold_left get_variables_line lines result))).
  { induction lines as [|l lines IH]; intros result H; [assumption|].
    cbn [fold_left]. apply IH. unfold get_variables_line.
    destruct l; [assumption|].
    destruct (is_declaration _); [|assumption].
    now apply dict_set_nodup. }
  apply G. constructor.
Qed.

End TemplateFacts.

(** * The properties of the specification *)

Import CondaMetaYamlHandler MetaYamlFacts CondaYamlFacts TemplateFacts.

(** ** Dependency tokens *)

(** C1, flat list: a string entry that [parse_requirement_line] does not
    accept and that holds neither [=] nor [::] is given the [version] of
    an earlier entry; there is none for the first entry of the list, and
    the function raises [UnboundLocalError]. *)
Theorem C1_flat_token_without_separator_raises
    (parse_requirement_line : pystr -> option (pystr * pystr))
    (dep : pystr) :
  parse_requirement_line dep = None ->
  ~ In "="%char dep ->
  contains (str "::") dep = false ->
  get_conda_yaml_dependencies parse_requirement_line [DepStr dep]
  = Raise UnboundLocalError.
Proof.
  intros Hreq Heq Hns.
  unfold get_conda_yaml_dependencies, parse_deps, parse_dep, parse_str_dep.
  rewrite Hns. cbn [bind]. rewrite Hreq.
  apply contains_char_false in Heq.
  change (str "=") with ["="%char]. rewrite Heq. reflexivity.
Qed.

Lemma C1_flat_token_without_separator_raises_witness :
  get_conda_yaml_dependencies sample_requirement_line
    [DepStr (str "numpy 1.15")]
  = Raise UnboundLocalError.
Proof.
  apply C1_flat_token_without_separator_raises.
  - reflexivity.
  - apply contains_char_false. reflexivity.
  - reflexivity.
Defined.

(** After an entry that set [version], such a token takes that version:
    here [libfoo 2] is given the version of [numpy=1.15]. *)
Example flat_token_stale_version :
  get_conda_yaml_dependencies sample_requirement_line
    [DepStr (str "numpy=1.15"); DepStr (str "libfoo 2")]
  = Ok [flat_dependency
          (mkPurl (str "conda") None (str "numpy") (Some (str "1.15")))
          (Some (str "=1.15")) true;
        flat_dependency
          (mkPurl (str "conda") None (str "libfoo 2") (Some (str "1.15")))
          None false].
Proof. reflexivity. Qed.

(** The scoped requirements do what C1 says: a token without [=] and
    without [::] parses, and its version is unset. *)
Lemma scoped_token_without_separator (req : pystr) :
  ~ In "="%char req ->
  contains (str "::") req = false ->
  exists f, parse_requirement req = Ok f
            /\ req_version f = None /\ req_is_pinned f = false.
Proof. apply parse_requirement_plain. Qed.

(** A second separator makes the unpacking of [split] raise. *)
Example scoped_token_build_string :
  parse_requirement (str "numpy=1.15.4=py36_0") = Raise ValueError.
Proof. reflexivity. Qed.

(** C6: [conda-forge::numpy=1.15.4] gives a pinned record of type
    [conda], namespace [conda-forge], name [numpy], version [1.15.4];
    the requirement becomes [=1.15.4]. *)
Theorem C6_namespaced_pinned_token
    (scope : pystr) (dependencies : list DependentPackage)
    (extra : extra_data) :
  exists d,
    parse_req scope (dependencies, extra) (str "conda-forge::numpy=1.15.4")
    = Ok (dependencies ++ [d], extra)
    /\ purl d = mkPurl (str "conda") (Some (str "conda-forge"))
                       (str "numpy") (Some (str "1.15.4"))
    /\ extracted_requirement d = Some (str "=1.15.4")
    /\ is_pinned d = true.
Proof.
  eexists. split; [reflexivity|].
  unfold make_dependency. cbn [req_namespace req_name req_version
    req_requirement req_is_pinned].
  destruct (contains (str "run") scope); repeat split.
Qed.

(** C8: a requirement whose parsed name is [pip] or [python] adds no
    record: the token is appended to the list [extra_data] keeps for the
    scope, the lists of the other scopes are untouched, and no record of
    the result has such a name. *)
Theorem C8_reserved_requirement_kept_aside :
  (forall (scope req : pystr) (f : requirement_fields)
          (dependencies : list DependentPackage) (extra : extra_data),
      parse_requirement req = Ok f ->
      is_reserved (req_name f) = true ->
      exists extra',
        parse_req scope (dependencies, extra) req = Ok (dependencies, extra')
        /\ dict_get scope extra'
           = Some (match dict_get scope extra with
                   | Some reqs => reqs
                   | None => []
                   end ++ [req])
        /\ forall scope', scope' <> scope ->
                          dict_get scope' extra' = dict_get scope' extra)
  /\ (forall (requirements : dict (list pystr)) (st : state),
         parse requirements = Ok st -> Forall unreserved (fst st)).
Proof.
  split; [|apply parse_unreserved].
  intros scope req f deps extra Hf Hr. unfold parse_req.
  rewrite Hf. cbn [bind]. rewrite Hr.
  destruct (dict_get scope extra) as [reqs|]; eexists;
    (split; [reflexivity|]); split.
  - apply dict_get_set_same.
  - intros scope' Hne. now apply dict_get_set_other.
  - apply dict_get_set_same.
  - intros scope' Hne. now apply dict_get_set_other.
Qed.

Lemma C8_reserved_requirement_kept_aside_witness :
  (exists extra',
      parse_req (str "run") ([], [(str "run", [str "pip"])])
                (str "python >=3.6")
      = Ok ([], extra')
      /\ dict_get (str "run") extra'
         = Some ([str "pip"] ++ [str "python >=3.6"])
      /\ forall scope', scope' <> str "run" ->
            dict_get scope' extra'
            = dict_get scope' [(str "run", [str "pip"])])
  /\ Forall unreserved
       (fst ([make_dependency (str "run")
                (mkReq (str "numpy") None None false [])],
             [(str "run", [str "python >=3.6"])])).
Proof.
  split.
  - apply (proj1 C8_reserved_requirement_kept_aside (str "run")
             (str "python >=3.6")
             (mkReq (str "python") None None false (str ">=3.6"))
             [] [(str "run", [str "pip"])]); reflexivity.
  - apply (proj2 C8_reserved_requirement_kept_aside
             [(str "run", [str "python >=3.6"; str "numpy"])]).
    reflexivity.
Defined.








(** ** Variables *)

(** C4: the value of a declaration is what follows its last [=], where
    the declared value follows the first one. *)
Theorem C4_value_cut_at_last_assignment :
  get_variables
    (str "{% set url = " ++ quoted "https://example.org/get?name=pkg"
         ++ text_line " %}")
  = [(str "url", str "pkg")].
Proof. reflexivity. Qed.

(** For a declaration with one [=], the name and the unquoted value. *)
Example get_variables_docstring :
  get_variables
    (str "{% set version = " ++ quoted "0.45.0" ++ text_line " %}"
     ++ str "{% set name = " ++ quoted "cortexpy" ++ text_line " %}")
  = [(str "version", str "0.45.0"); (str "name", str "cortexpy")].
Proof. reflexivity. Qed.

(** ** Template resolution *)










(** * Further facts *)

Module TokenFacts.

Import CondaMetaYamlHandler MetaYamlFacts TemplateFacts.

Lemma split_from_head_app (sep : pystr) (h : ascii) (a cur s : pystr) :
  hd_error sep = Some h -> ~ In h a ->
  split_from sep 0 cur (a ++ s) = split_from sep 0 (rev a ++ cur) s.
Proof.
  intros Hh. destruct sep as [|h' sep]; [discriminate|].
  inversion Hh; subst h'.
  revert cur; induction a as [|d a IH]; intros cur H; [reflexivity|].
  simpl app. cbn [split_from].
  rewrite startswith_head by (intros ->; apply H; now left).
  rewrite IH by (intros Hin; apply H; now right).
  simpl. now rewrite <- app_assoc.
Qed.

(** One separator between two texts without its first character. *)
Lemma split_once (sep : pystr) (h : ascii) (a b : pystr) :
  hd_error sep = Some h -> ~ In h a -> ~ In h b ->
  split sep (a ++ sep ++ b) = [a; b].
Proof.
  intros Hh Ha Hb. unfold split.
  rewrite (@split_from_head_app sep h a [] (sep ++ b) Hh Ha).
  rewrite split_from_sep by (destruct sep; discriminate).
  rewrite split_from_none.
  - now rewrite app_nil_r, rev_involutive.
  - destruct (contains sep b) eqn:E; [|reflexivity].
    elim Hb. eapply contains_In; [exact E|].
    destruct sep; [discriminate|]. inversion Hh; subst. now left.
Qed.

(** A separator character cuts off the text before it. *)
Lemma split_char_cons (c : ascii) (a s : pystr) :
  ~ In c a -> split [c] (a ++ c :: s) = a :: split [c] s.
Proof.
  intros Ha. unfold split.
  rewrite (@split_from_head_app [c] c a [] (c :: s) eq_refl Ha).
  change (c :: s) with ([c] ++ s).
  rewrite split_from_sep by discriminate.
  now rewrite app_nil_r, rev_involutive.
Qed.

Lemma find_split_char_none (c : ascii) (s : pystr) :
  ~ In c s -> find_split [c] s = None.
Proof.
  induction s as [|d s IH]; intros H; [reflexivity|].
  cbn [find_split].
  rewrite startswith_head by (intros ->; apply H; now left).
  rewrite IH; [reflexivity|]. intros Hin. apply H. now right.
Qed.

Lemma partition_char_none (c : ascii) (s : pystr) :
  ~ In c s -> partition [c] s = (s, [], []).
Proof. intros H. unfold partition. now rewrite find_split_char_none. Qed.

Lemma lacks_not_in (chars : string) (s : pystr) (c : ascii) :
  lacks chars s = true -> mem_char c (str chars) = true -> ~ In c s.
Proof. intros H Hc. eapply lacks_In; [exact H|]. now apply mem_char_In. Qed.

Lemma not_in_app (c : ascii) (a b : pystr) :
  ~ In c a -> ~ In c b -> ~ In c (a ++ b).
Proof. intros Ha Hb H. apply in_app_or in H as [H|H]; contradiction. Qed.

(** The token grammar, read back. *)
Lemma parse_requirement_token (namespace : option pystr) (name : pystr)
    (pin requirement : option pystr) :
  match namespace with Some ns => lacks " =:" ns | None => true end = true ->
  lacks " =:" name = true ->
  match pin with Some v => lacks " =:" v | None => true end = true ->
  match requirement with
  | Some r => negb (startswith (str "==") r)
  | None => true
  end = true ->
  parse_requirement (token namespace name pin requirement)
  = Ok (mkReq name namespace pin
              (match pin with Some _ => true | None => false end)
              (match pin with
               | Some v => str "=" ++ v
               | None => match requirement with Some r => r | None => [] end
               end)).
Proof.
  intros Hns Hname Hpin Hreq.
  set (pinpart := match pin with Some v => str "=" ++ v | None => [] end).
  set (nspart := match namespace with
                 | Some ns => ns ++ str "::" | None => [] end).
  assert (Wn : forall c, mem_char c (str " =:") = true -> ~ In c name)
    by (intros c Hc; eapply lacks_not_in; eassumption).
  assert (Wp : forall c, c = " "%char \/ c = ":"%char -> ~ In c pinpart).
  { intros c Hc. subst pinpart. destruct pin as [v|]; [|intros []].
    intros [E|Hin]; [destruct Hc; subst; discriminate|].
    revert Hin. eapply lacks_not_in; [exact Hpin|].
    destruct Hc; subst; reflexivity. }
  assert (Ws : ~ In " "%char nspart).
  { subst nspart. destruct namespace as [ns|]; [|intros []].
    apply not_in_app; [eapply lacks_not_in; [exact Hns | reflexivity]|].
    simpl. intuition discriminate. }
  assert (Hsp : ~ In " "%char (nspart ++ name ++ pinpart)).
  { repeat apply not_in_app; auto. }
  rewrite parse_requirement_eq.
  assert (P : partition (str " ") (token namespace name pin requirement)
              = (nspart ++ name ++ pinpart,
                 match requirement with Some _ => str " " | None => [] end,
                 match requirement with Some r => r | None => [] end)).
  { unfold token. fold nspart pinpart. destruct requirement as [r|].
    - replace (nspart ++ name ++ pinpart ++ str " " ++ r)
        with ((nspart ++ name ++ pinpart) ++ " "%char :: r)
        by (now rewrite <- !app_assoc).
      now apply partition_char.
    - rewrite app_nil_r. now apply partition_char_none. }
  rewrite P. clear P.
  assert (V : eq_version
                (match requirement with Some r => r | None => [] end)
              = Ok None).
  { unfold eq_version. destruct requirement as [r|]; [|reflexivity].
    apply negb_true_iff in Hreq. now rewrite Hreq. }
  rewrite V. cbn [bind]. clear V.
  assert (Hcolon : ~ In ":"%char (name ++ pinpart)).
  { apply not_in_app; auto. }
  assert (N : split_namespace (nspart ++ name ++ pinpart)
              = Ok (namespace, name ++ pinpart)).
  { unfold split_namespace. subst nspart. destruct namespace as [ns|].
    - rewrite <- app_assoc. rewrite contains_here.
      rewrite (@split_once (str "::") ":" ns (name ++ pinpart) eq_refl);
        [reflexivity| |assumption].
      eapply lacks_not_in; [exact Hns | reflexivity].
    - cbn [app].
      destruct (contains (str "::") (name ++ pinpart)) eqn:E;
        [|reflexivity].
      elim Hcolon. eapply contains_In; [exact E | now left]. }
  rewrite N. cbn [bind]. clear N.
  subst pinpart. destruct pin as [v|].
  - change (str "=") with ["="%char].
    rewrite (contains_here ["="%char] name v).
    change (["="%char] ++ v) with ("="%char :: v).
    rewrite split_char_once; [reflexivity| |].
    + now apply Wn.
    + eapply lacks_not_in; [exact Hpin | reflexivity].
  - rewrite app_nil_r.
    assert (E : contains (str "=") name = false).
    { apply contains_char_false. now apply Wn. }
    now rewrite E.
Qed.

(** ** Errors *)

Lemma unpack2_raise (parts : list pystr) (e : exn) :
  unpack2 parts = Raise e -> e = ValueError.
Proof.
  destruct parts as [|a [|b [|c parts]]]; simpl; intros H;
    inversion H; reflexivity.
Qed.

Lemma bind_raise {A B} (m : result A) (f : A -> result B) (e : exn) :
  bind m f = Raise e ->
  m = Raise e \/ exists a, m = Ok a /\ f a = Raise e.
Proof.
  destruct m; simpl; intros H; [right; eauto | left; now inversion H].
Qed.

(** [parse_requirement] raises nothing but [ValueError]. *)
Lemma parse_requirement_raise (req : pystr) (e : exn) :
  parse_requirement req = Raise e -> e = ValueError.
Proof.
  rewrite parse_requirement_eq.
  destruct (partition (str " ") req) as [[name sp] requirement].
  unfold eq_version, split_namespace. intros H.
  apply bind_raise in H as [H|[version [_ H]]].
  { destruct (startswith (str "==") requirement); [|discriminate].
    apply bind_raise in H as [H|[[a b] [_ H]]];
      [now apply unpack2_raise in H | discriminate]. }
  apply bind_raise in H as [H|[[namespace name'] [_ H]]].
  { destruct (contains (str "::") name); [|discriminate].
    apply bind_raise in H as [H|[[a b] [_ H]]];
      [now apply unpack2_raise in H | discriminate]. }
  destruct (contains (str "=") name'); [|discriminate].
  apply bind_raise in H as [H|[[a b] [_ H]]];
    [now apply unpack2_raise in H | discriminate].
Qed.

Lemma parse_req_raise (scope req : pystr) (st : state) (e : exn) :
  parse_req scope st req = Raise e -> e = ValueError.
Proof.
  destruct st as [deps extra]. unfold parse_req. intros H.
  apply bind_raise in H as [H|[f [_ H]]].
  - now apply parse_requirement_raise in H.
  - destruct (is_reserved (req_name f)); [|discriminate].
    destruct (dict_get scope extra); discriminate.
Qed.

Lemma parse_req_fails (scope req : pystr) (st : state) (e : exn) :
  parse_requirement req = Raise e -> parse_req scope st req = Raise e.
Proof.
  destruct st as [deps extra]. unfold parse_req. now intros ->.
Qed.

Lemma parse_reqs_raise (scope : pystr) (reqs : list pystr) :
  forall st e, parse_reqs scope st reqs = Raise e -> e = ValueError.
Proof.
  induction reqs as [|req reqs IH]; simpl; intros st e H; [discriminate|].
  apply bind_raise in H as [H|[st1 [_ H]]].
  - now apply parse_req_raise in H.
  - now apply IH in H.
Qed.

Lemma parse_reqs_fails (scope req : pystr) (reqs : list pystr) (e : exn) :
  In req reqs -> parse_requirement req = Raise e ->
  forall st, parse_reqs scope st reqs = Raise ValueError.
Proof.
  intros Hin Hreq. induction reqs as [|r reqs IH]; [destruct Hin|].
  intros st. cbn [parse_reqs].
  destruct (parse_req scope st r) as [st1|e1] eqn:E; cbn [bind].
  - destruct Hin as [->|Hin]; [|now apply IH].
    rewrite (@parse_req_fails scope req st e Hreq) in E. discriminate.
  - now rewrite (@parse_req_raise scope r st e1 E).
Qed.

Lemma parse_scopes_fails (requirements : dict (list pystr))
    (scope req : pystr) (reqs : list pystr) (e : exn) :
  In (scope, reqs) requirements -> In req reqs ->
  parse_requirement req = Raise e ->
  forall st, parse_scopes st requirements = Raise ValueError.
Proof.
  intros Hin Hreq He.
  induction requirements as [|[s rs] rest IH]; [destruct Hin|].
  intros st. cbn [parse_scopes].
  destruct (parse_reqs s st rs) as [st1|e1] eqn:E; cbn [bind].
  - destruct Hin as [Heq|Hin]; [|now apply IH].
    inversion Heq; subst.
    rewrite (@parse_reqs_fails scope req reqs e Hreq He st) in E. discriminate.
  - now rewrite (@parse_reqs_raise s rs st e1 E).
Qed.

End TokenFacts.

(** * The loops, once more *)

Module LoopFacts.

Import CondaMetaYamlHandler MetaYamlFacts CondaYamlFacts TemplateFacts
       TokenFacts.

(** ** Scoped requirements: every token is filed once *)

Lemma token_count_cons (k : pystr) (v : list pystr)
    (d : dict (list pystr)) :
  token_count ((k, v) :: d) = List.length v + token_count d.
Proof. unfold token_count. simpl. now rewrite length_app. Qed.

Lemma token_count_set_new (k x : pystr) (d : dict (list pystr)) :
  dict_get k d = None -> token_count (dict_set k [x] d) = S (token_count d).
Proof.
  induction d as [|[k' v'] d IH]; cbn [dict_get dict_set]; intros H.
  - reflexivity.
  - destruct (str_eqb k k'); [discriminate|].
    rewrite !token_count_cons, IH by assumption. lia.
Qed.

Lemma token_count_set_app (k x : pystr) (l : list pystr)
    (d : dict (list pystr)) :
  dict_get k d = Some l ->
  token_count (dict_set k (l ++ [x]) d) = S (token_count d).
Proof.
  induction d as [|[k' v'] d IH]; cbn [dict_get dict_set]; intros H.
  - discriminate.
  - destruct (str_eqb k k').
    + inversion H; subst. rewrite !token_count_cons, length_app. simpl. lia.
    + rewrite !token_count_cons, IH by assumption. lia.
Qed.

Lemma parse_req_count (scope req : pystr) (st st' : state) :
  parse_req scope st req = Ok st' ->
  List.length (fst st') + token_count (snd st')
  = S (List.length (fst st) + token_count (snd st)).
Proof.
  destruct st as [deps extra]. unfold parse_req. intros H.
  apply bind_ok in H as [f [_ H]].
  destruct (is_reserved (req_name f)).
  - destruct (dict_get scope extra) as [l|] eqn:E; inversion H; subst;
      cbn [fst snd].
    + rewrite token_count_set_app by assumption. lia.
    + rewrite token_count_set_new by assumption. lia.
  - inversion H; subst; cbn [fst snd]. rewrite length_app. simpl. lia.
Qed.

Lemma parse_reqs_count (scope : pystr) (reqs : list pystr) :
  forall st st',
    parse_reqs scope st reqs = Ok st' ->
    List.length (fst st') + token_count (snd st')
    = List.length reqs + (List.length (fst st) + token_count (snd st)).
Proof.
  induction reqs as [|req reqs IH]; simpl; intros st st' H.
  - now inversion H.
  - apply bind_ok in H as [st1 [E H]].
    rewrite (IH _ _ H), (parse_req_count _ _ _ E). lia.
Qed.

Lemma parse_scopes_count (requirements : dict (list pystr)) :
  forall st st',
    parse_scopes st requirements = Ok st' ->
    List.length (fst st') + token_count (snd st')
    = token_count requirements
      + (List.length (fst st) + token_count (snd st)).
Proof.
  induction requirements as [|[scope reqs] rest IH]; simpl; intros st st' H.
  - now inversion H.
  - apply bind_ok in H as [st1 [E H]].
    rewrite (IH _ _ H), (parse_reqs_count _ _ _ E), token_count_cons. lia.
Qed.

(** ** Scoped requirements: what [extra_data] holds *)

Lemma parse_req_extra (scope req : pystr) (st st' : state) :
  parse_req scope st req = Ok st' ->
  extra_reserved (snd st) -> extra_reserved (snd st').
Proof.
  destruct st as [deps extra]. unfold parse_req. intros H Hx.
  apply bind_ok in H as [f [Hf H]].
  destruct (is_reserved (req_name f)) eqn:R;
    [|inversion H; subst; exact Hx].
  assert (Hreq : reserved_token req) by (exists f; now split).
  cbn [snd] in Hx.
  destruct (dict_get scope extra) as [l|] eqn:E; inversion H; subst;
    cbn [snd]; intros scope' reqs Hget;
    (destruct (str_eqb scope' scope) eqn:S;
     [apply str_eqb_eq in S; subst scope';
      rewrite dict_get_set_same in Hget; inversion Hget; subst
     |apply str_eqb_neq in S;
      rewrite dict_get_set_other in Hget by assumption;
      now apply (Hx scope')]).
  - apply Forall_app. split; [now apply (Hx scope) | now repeat constructor].
  - now repeat constructor.
Qed.

Lemma parse_reqs_extra (scope : pystr) (reqs : list pystr) :
  forall st st', parse_reqs scope st reqs = Ok st' ->
                 extra_reserved (snd st) -> extra_reserved (snd st').
Proof.
  induction reqs as [|req reqs IH]; simpl; intros st st' H Hx.
  - inversion H; now subst.
  - apply bind_ok in H as [st1 [E H]].
    eapply IH; [eassumption|]. eapply parse_req_extra; eassumption.
Qed.

Lemma parse_scopes_extra (requirements : dict (list pystr)) :
  forall st st', parse_scopes st requirements = Ok st' ->
                 extra_reserved (snd st) -> extra_reserved (snd st').
Proof.
  induction requirements as [|[scope reqs] rest IH]; simpl;
    intros st st' H Hx.
  - inversion H; now subst.
  - apply bind_ok in H as [st1 [E H]].
    eapply IH; [eassumption|]. eapply parse_reqs_extra; eassumption.
Qed.

(** ** Scoped requirements: records are only added *)

Lemma parse_req_grows (scope req : pystr) (st st' : state) :
  parse_req scope st req = Ok st' -> exists new, fst st' = fst st ++ new.
Proof.
  destruct st as [deps extra]. unfold parse_req. intros H.
  apply bind_ok in H as [f [_ H]].
  destruct (is_reserved (req_name f)).
  - exists []. destruct (dict_get scope extra); inversion H; subst;
      cbn [fst]; now rewrite app_nil_r.
  - inversion H; subst. now eexists.
Qed.

Lemma parse_reqs_grows (scope : pystr) (reqs : list pystr) :
  forall st st', parse_reqs scope st reqs = Ok st' ->
                 exists new, fst st' = fst st ++ new.
Proof.
  induction reqs as [|req reqs IH]; simpl; intros st st' H.
  - inversion H; subst. exists []. now rewrite app_nil_r.
  - apply bind_ok in H as [st1 [E H]].
    destruct (parse_req_grows _ _ _ E) as [n1 E1].
    destruct (IH _ _ H) as [n2 E2].
    exists (n1 ++ n2). now rewrite E2, E1, app_assoc.
Qed.

Lemma parse_scopes_grows (requirements : dict (list pystr)) :
  forall st st', parse_scopes st requirements = Ok st' ->
                 exists new, fst st' = fst st ++ new.
Proof.
  induction requirements as [|[scope reqs] rest IH]; simpl; intros st st' H.
  - inversion H; subst. exists []. now rewrite app_nil_r.
  - apply bind_ok in H as [st1 [E H]].
    destruct (parse_reqs_grows _ _ _ E) as [n1 E1].
    destruct (IH _ _ H) as [n2 E2].
    exists (n1 ++ n2). now rewrite E2, E1, app_assoc.
Qed.

Lemma parse_scopes_app (r1 r2 : dict (list pystr)) :
  forall st, parse_scopes st (r1 ++ r2)
             = st' <- parse_scopes st r1 ;; parse_scopes st' r2.
Proof.
  induction r1 as [|[scope reqs] r1 IH]; simpl; intros st; [reflexivity|].
  destruct (parse_reqs scope st reqs) as [st1|]; cbn [bind];
    [apply IH | reflexivity].
Qed.

(** ** Scoped requirements: classification *)

Lemma make_dependency_classified (sc : pystr) (f : requirement_fields) :
  classified (make_dependency sc f) /\ scope (make_dependency sc f) = sc.
Proof.
  unfold classified, make_dependency.
  destruct (contains (str "run") sc) eqn:E;
    cbn [purl scope is_runtime is_optional is_direct purl_type];
    rewrite E; repeat split.
Qed.

Lemma parse_classified (requirements : dict (list pystr)) (st : state) :
  parse requirements = Ok st -> Forall classified (fst st).
Proof.
  apply parse_inv. intros sc req f _ _.
  apply make_dependency_classified.
Qed.

(** The scope of every record is a scope of the requirements. *)
Lemma parse_req_scope (P : pystr -> Prop) (sc req : pystr)
    (st st' : state) :
  P sc -> parse_req sc st req = Ok st' ->
  Forall (fun d => P (scope d)) (fst st) ->
  Forall (fun d => P (scope d)) (fst st').
Proof.
  destruct st as [deps extra]. unfold parse_req. intros Hsc H HP.
  apply bind_ok in H as [f [_ H]].
  destruct (is_reserved (req_name f)).
  - destruct (dict_get sc extra); inversion H; subst; assumption.
  - inversion H; subst. cbn [fst] in *. apply Forall_app.
    split; [assumption|]. constructor; [|constructor].
    now rewrite (proj2 (make_dependency_classified sc f)).
Qed.

Lemma parse_reqs_scope (P : pystr -> Prop) (sc : pystr)
    (reqs : list pystr) :
  P sc ->
  forall st st', parse_reqs sc st reqs = Ok st' ->
                 Forall (fun d => P (scope d)) (fst st) ->
                 Forall (fun d => P (scope d)) (fst st').
Proof.
  intros Hsc. induction reqs as [|req reqs IH]; simpl; intros st st' H HP.
  - inversion H; now subst.
  - apply bind_ok in H as [st1 [E H]].
    eapply IH; [eassumption|]. eapply parse_req_scope; eassumption.
Qed.

Lemma parse_scopes_scope (keys : list pystr)
    (requirements : dict (list pystr)) :
  (forall sc, In sc (dict_keys requirements) -> In sc keys) ->
  forall st st',
    parse_scopes st requirements = Ok st' ->
    Forall (fun d => In (scope d) keys) (fst st) ->
    Forall (fun d => In (scope d) keys) (fst st').
Proof.
  induction requirements as [|[sc reqs] rest IH]; intros Hk st st' H HP.
  - simpl in H. inversion H; now subst.
  - cbn [parse_scopes] in H. apply bind_ok in H as [st1 [E H]].
    eapply IH; [|exact H|].
    + intros s Hs. apply Hk. now right.
    + eapply parse_reqs_scope with (P := fun s => In s keys);
        [|exact E|assumption].
      apply Hk. now left.
Qed.

Lemma parse_scope_keys (requirements : dict (list pystr)) (st : state) :
  parse requirements = Ok st ->
  Forall (fun d => In (scope d) (dict_keys requirements)) (fst st).
Proof.
  intros H.
  eapply parse_scopes_scope with (keys := dict_keys requirements);
    [|exact H|constructor].
  intros sc Hsc. exact Hsc.
Qed.

End LoopFacts.

(** * The flat list, once more *)

Module FlatFacts.

Import MetaYamlFacts CondaYamlFacts TemplateFacts TokenFacts.

Lemma split_nonempty (sep s : pystr) : split sep s <> [].
Proof.
  unfold split. generalize (@nil ascii) as cur. generalize 0 as k.
  induction s as [|c s IH]; intros k cur; cbn [split_from];
    [discriminate|].
  destruct k; [|apply IH].
  destruct (startswith sep (c :: s)); [discriminate | apply IH].
Qed.

(** Two [=] or more: the unpacking of [split] into two names raises. *)
Lemma unpack2_build_string (n v b : pystr) :
  ~ In "="%char n -> ~ In "="%char v ->
  unpack2 (split (str "=") (n ++ "="%char :: v ++ "="%char :: b))
  = Raise ValueError.
Proof.
  intros Hn Hv. change (str "=") with ["="%char].
  rewrite split_char_cons, split_char_cons by assumption.
  destruct (split ["="%char] b) eqn:E; [|reflexivity].
  now apply split_nonempty in E.
Qed.

Section Facts.

Variable parse_requirement_line : pystr -> option (pystr * pystr).

Local Abbreviation str_dep := (parse_str_dep parse_requirement_line).
Local Abbreviation pip_line := (parse_pip_line parse_requirement_line).
Local Abbreviation one_dep := (parse_dep parse_requirement_line).
Local Abbreviation all_deps := (parse_deps parse_requirement_line).
Local Abbreviation flat_deps :=
  (get_conda_yaml_dependencies parse_requirement_line).

(** ** What every record of the flat list is *)

Lemma pypi_classified (name specs : pystr) :
  flat_classified
    (flat_dependency
       (mkPurl (str "pypi") None name (fst (pypi_version specs)))
       (Some specs) (snd (pypi_version specs))).
Proof. unfold flat_classified, flat_dependency. cbn. intuition. Qed.

Lemma parse_str_dep_classified (st st' : flat_state) (dep : pystr) :
  str_dep st dep = Ok st' ->
  Forall flat_classified (snd st) -> Forall flat_classified (snd st').
Proof.
  destruct st as [version deps]. unfold parse_str_dep. intros H HP.
  apply bind_ok in H as [[namespace dep'] [Ens H]].
  apply bind_ok in H as [[[[version' purl] specs] is_pinned] [E H]].
  destruct (is_reserved (purl_name purl)); inversion H; subst;
    cbn [snd] in *; [assumption|].
  apply Forall_app. split; [assumption|]. constructor; [|constructor].
  destruct (parse_requirement_line dep') as [[name specs']|].
  - pose proof (pypi_classified name specs') as Hp.
    destruct (pypi_version specs') as [v p]. now inversion E; subst.
  - apply bind_ok in E as [[[[dep2 version2] specs2] pinned2] [E1 E2]].
    apply bind_ok in E2 as [v [E2 E3]]. inversion E3; subst.
    unfold flat_classified, flat_dependency. cbn.
    repeat split. right. split; [reflexivity|].
    intros ns Hns. subst namespace.
    destruct (contains (str "::") dep); [|discriminate].
    apply bind_ok in Ens as [[a b] [_ Ens]].
    destruct (contains (str "/") a || contains (str ":") a) eqn:C;
      [discriminate|].
    inversion Ens; subst. apply orb_false_iff in C as [C1 C2].
    split; now apply contains_char_false.
Qed.

Lemma parse_pip_line_classified (st : flat_state) (line : pystr) :
  Forall flat_classified (snd st) ->
  Forall flat_classified (snd (pip_line st line)).
Proof.
  destruct st as [version deps]. unfold parse_pip_line. intros HP.
  destruct (parse_requirement_line line) as [[name specs]|]; [|assumption].
  pose proof (pypi_classified name specs) as Hp.
  destruct (pypi_version specs) as [v p]. cbn [snd] in *.
  apply Forall_app. split; [assumption|]. now repeat constructor.
Qed.

Lemma parse_pip_lines_classified (lines : list pystr) :
  forall st, Forall flat_classified (snd st) ->
             Forall flat_classified (snd (fold_left pip_line lines st)).
Proof.
  induction lines as [|l ls IH]; intros st HP; [assumption|].
  cbn [fold_left]. apply IH. now apply parse_pip_line_classified.
Qed.

Lemma parse_deps_classified (dependencies : list dependency) :
  forall st st', all_deps st dependencies = Ok st' ->
                 Forall flat_classified (snd st) ->
                 Forall flat_classified (snd st').
Proof.
  induction dependencies as [|dep rest IH]; simpl; intros st st' H HP.
  - inversion H; now subst.
  - apply bind_ok in H as [st1 [E H]].
    eapply IH; [eassumption|]. clear H IH.
    destruct dep as [dep|dep|]; simpl in E.
    + eapply parse_str_dep_classified; eassumption.
    + inversion E; subst. now apply parse_pip_lines_classified.
    + inversion E; now subst.
Qed.

(** ** A string entry that raises *)

Lemma parse_str_dep_build_string (st : flat_state) (n v b : pystr) :
  let dep := n ++ "="%char :: v ++ "="%char :: b in
  ~ In "="%char n -> ~ In "="%char v ->
  contains (str "::") dep = false ->
  parse_requirement_line dep = None ->
  str_dep st dep = Raise ValueError.
Proof.
  intros dep Hn Hv Hns Hreq. destruct st as [version deps].
  unfold parse_str_dep. rewrite Hns. cbn [bind]. rewrite Hreq.
  assert (C : contains (str "=") dep = true).
  { apply (contains_here (str "=") n (v ++ "="%char :: b)). }
  rewrite C. subst dep. now rewrite unpack2_build_string.
Qed.

(** An entry that raises ends the loop. *)
Lemma parse_deps_abort (xs ys : list dependency) (dep : dependency)
    (st : flat_state) :
  (forall st1, exists e, one_dep st1 dep = Raise e) ->
  exists e, all_deps st (xs ++ dep :: ys) = Raise e.
Proof.
  intros H. rewrite parse_deps_app.
  destruct (all_deps st xs) as [st1|e]; cbn [bind]; [|now exists e].
  cbn [parse_deps]. destruct (H st1) as [e ->]. now exists e.
Qed.

(** ** A string entry that is kept aside *)

(** A requirement line with a reserved name adds nothing. *)
Lemma parse_str_dep_reserved (st : flat_state) (dep name specs : pystr) :
  contains (str "::") dep = false ->
  parse_requirement_line dep = Some (name, specs) ->
  is_reserved name = true ->
  exists version, str_dep st dep = Ok (version, snd st).
Proof.
  intros Hns Hreq Hr. destruct st as [version deps].
  unfold parse_str_dep. rewrite Hns. cbn [bind]. rewrite Hreq.
  destruct (pypi_version specs) as [v p]. cbn [bind purl_name].
  rewrite Hr. eexists. reflexivity.
Qed.

Lemma parse_deps_reserved (dependencies : list dependency) :
  Forall (reserved_entry parse_requirement_line) dependencies ->
  forall st, exists version,
    all_deps st dependencies = Ok (version, snd st).
Proof.
  induction 1 as [|dep rest Hd _ IH]; intros st.
  - destruct st as [v deps]. now exists v.
  - cbn [parse_deps]. destruct dep as [dep|dep|]; cbn [parse_dep].
    + destruct Hd as [Hns [name [specs [Hreq Hr]]]].
      destruct (@parse_str_dep_reserved st dep name specs Hns Hreq Hr)
        as [v ->].
      cbn [bind]. destruct (IH (v, snd st)) as [v' E]. now exists v'.
    + destruct Hd.
    + cbn [bind]. apply IH.
Qed.

End Facts.

End FlatFacts.

(** * The root of a recipe *)

Module RootFacts.

Section Facts.

Variable Resource : Type.
Variable path : Resource -> pystr.
Variable parent : Resource -> option Resource.

Lemma climb_iter (segments : list pystr) (res : Resource) :
  climb parent segments res = iter_parent parent (List.length segments) res.
Proof.
  revert res; induction segments as [|s segments IH]; intros res;
    [reflexivity|].
  cbn [climb iter_parent List.length].
  destruct (parent res); [apply IH | reflexivity].
Qed.

(** A path ends with one of the three patterns at most. *)
Lemma endswith_recipe_exclusive (p : pystr) :
  endswith (str "conda.recipe/meta.yaml") p = true ->
  endswith (str "info/recipe.tar-extract/recipe/meta.yaml") p = false
  /\ endswith (str "info/recipe/recipe/meta.yaml") p = false.
Proof.
  unfold endswith. intros H. apply startswith_inv in H as [r Hr].
  split.
  - destruct (startswith _ (rev p)) eqn:E; [|reflexivity].
    apply startswith_inv in E as [r' Hr']. rewrite Hr in Hr'.
    discriminate Hr'.
  - destruct (startswith _ (rev p)) eqn:E; [|reflexivity].
    apply startswith_inv in E as [r' Hr']. rewrite Hr in Hr'.
    discriminate Hr'.
Qed.

End Facts.

End RootFacts.

(** * Declarations and the lines of a recipe *)

Module DeclarationFacts.

Import TemplateFacts TokenFacts.

(** ** [strip] and its variants *)

Lemma lstrip_chars_made (chars a b : pystr) :
  made_of chars a = true ->
  lstrip_chars chars (a ++ b) = lstrip_chars chars b.
Proof.
  unfold made_of. induction a as [|c a IH]; cbn [forallb app lstrip_chars];
    intros H; [reflexivity|].
  apply andb_true_iff in H as [Hc Ha]. rewrite Hc. now apply IH.
Qed.

Lemma lstrip_chars_clear (chars s : pystr) :
  starts_clear chars s = true -> lstrip_chars chars s = s.
Proof.
  destruct s as [|c s]; cbn [starts_clear lstrip_chars]; intros H;
    [reflexivity|].
  apply negb_true_iff in H. now rewrite H.
Qed.

Lemma lstrip_chars_pad (chars a s : pystr) :
  made_of chars a = true -> starts_clear chars s = true ->
  lstrip_chars chars (a ++ s) = s.
Proof.
  intros Ha Hs. now rewrite lstrip_chars_made, lstrip_chars_clear.
Qed.

Lemma made_of_rev (chars a : pystr) :
  made_of chars (rev a) = made_of chars a.
Proof.
  unfold made_of. destruct (forallb _ a) eqn:E.
  - rewrite forallb_forall in *. intros c Hc. apply E. now apply in_rev.
  - destruct (forallb _ (rev a)) eqn:F; [|reflexivity].
    rewrite forallb_forall in F.
    assert (X : forallb (fun c => mem_char c chars) a = true).
    { apply forallb_forall. intros c Hc. apply F. now apply in_rev in Hc. }
    congruence.
Qed.

Lemma rstrip_chars_pad (chars s b : pystr) :
  made_of chars b = true -> ends_clear chars s = true ->
  rstrip_chars chars (s ++ b) = s.
Proof.
  intros Hb Hs. unfold rstrip_chars. rewrite rev_app_distr.
  rewrite lstrip_chars_pad; [apply rev_involutive| |exact Hs].
  now rewrite made_of_rev.
Qed.

Lemma strip_chars_pad (chars a s b : pystr) :
  made_of chars a = true -> made_of chars b = true ->
  starts_clear chars s = true -> ends_clear chars s = true ->
  strip_chars chars (a ++ s ++ b) = s.
Proof.
  intros Ha Hb Hs He. unfold strip_chars.
  rewrite lstrip_chars_made by assumption.
  destruct s as [|c s].
  - cbn [app]. replace (lstrip_chars chars b) with (@nil ascii).
    + reflexivity.
    + rewrite <- (app_nil_r b), lstrip_chars_made by assumption.
      reflexivity.
  - rewrite lstrip_chars_clear.
    + now apply rstrip_chars_pad.
    + exact Hs.
Qed.

Lemma free_of_starts (chars s : pystr) :
  free_of chars s = true -> starts_clear chars s = true.
Proof.
  destruct s as [|c s]; [reflexivity|]. unfold free_of. cbn.
  intros H. now apply andb_true_iff in H as [H _].
Qed.

Lemma free_of_rev (chars s : pystr) :
  free_of chars s = true -> free_of chars (rev s) = true.
Proof.
  unfold free_of. rewrite !forallb_forall. intros H c Hc.
  apply H. now apply in_rev.
Qed.

Lemma free_of_ends (chars s : pystr) :
  free_of chars s = true -> ends_clear chars s = true.
Proof.
  intros H. unfold ends_clear. now apply free_of_starts, free_of_rev.
Qed.

Lemma free_of_not_in (chars s : pystr) (c : ascii) :
  free_of chars s = true -> In c chars -> ~ In c s.
Proof.
  unfold free_of. rewrite forallb_forall. intros H Hc Hs.
  specialize (H c Hs). apply negb_true_iff in H.
  apply mem_char_In in Hc. congruence.
Qed.

Lemma free_of_sub (chars chars' s : pystr) :
  free_of chars s = true ->
  (forall c, In c chars' -> In c chars) ->
  free_of chars' s = true.
Proof.
  unfold free_of. rewrite !forallb_forall. intros H Hsub c Hc.
  specialize (H c Hc). apply negb_true_iff in H. apply negb_true_iff.
  destruct (mem_char c chars') eqn:E; [|reflexivity].
  apply mem_char_In in E. apply Hsub, mem_char_In in E. congruence.
Qed.

Lemma ends_clear_snoc (chars s : pystr) (c : ascii) :
  mem_char c chars = false -> ends_clear chars (s ++ [c]) = true.
Proof.
  intros H. unfold ends_clear. rewrite rev_app_distr. cbn. now rewrite H.
Qed.

(** ** One declaration *)

Lemma wf_name_inv (name : pystr) :
  wf_name name = true ->
  name <> [] /\ free_of ("="%char :: whitespace) name = true.
Proof. destruct name; [discriminate | now split]. Qed.

Section Declaration.

Variables name value : pystr.
Hypothesis Hname : wf_name name = true.
Hypothesis Hvalue : wf_value value = true.

Let quoted_value : pystr := dquote :: value ++ [dquote].
Let assignment : pystr := name ++ str " = " ++ quoted_value.

Lemma name_clear : free_of whitespace name = true.
Proof.
  apply wf_name_inv in Hname as [_ H].
  apply (free_of_sub _ whitespace _ H). intros c Hc. now right.
Qed.

Lemma name_no_eq : ~ In "="%char name.
Proof.
  apply wf_name_inv in Hname as [_ H].
  eapply free_of_not_in; [exact H | now left].
Qed.

Lemma value_no_eq : ~ In "="%char value.
Proof. eapply free_of_not_in; [exact Hvalue | now left]. Qed.

Lemma declaration_eq :
  declaration name value
  = str "{%" ++ (str " " ++ (str "set" ++ str " " ++ assignment) ++ str " ")
    ++ str "%}".
Proof.
  unfold declaration, assignment, quoted_value.
  cbn [str list_ascii_of_string app].
  repeat (rewrite <- app_assoc; cbn [app]). reflexivity.
Qed.

Lemma assignment_starts : starts_clear whitespace assignment = true.
Proof.
  unfold assignment. pose proof name_clear as H.
  apply wf_name_inv in Hname as [Hne _].
  destruct name as [|c n]; [congruence|].
  cbn [app starts_clear]. unfold free_of in H. cbn in H.
  now apply andb_true_iff in H as [H _].
Qed.

Lemma assignment_ends (chars : pystr) :
  mem_char dquote chars = false -> ends_clear chars assignment = true.
Proof.
  intros H. unfold assignment, quoted_value.
  replace (name ++ str " = " ++ dquote :: value ++ [dquote])
    with ((name ++ str " = " ++ dquote :: value) ++ [dquote])
    by (repeat (rewrite <- app_assoc; cbn [app]); reflexivity).
  now apply ends_clear_snoc.
Qed.

(** The stripped line passes the test. *)
Lemma declaration_is_declaration :
  is_declaration (declaration name value) = true.
Proof.
  unfold is_declaration. apply andb_true_iff. split;
    [apply andb_true_iff; split|].
  - reflexivity.
  - rewrite declaration_eq. unfold endswith.
    rewrite !rev_app_distr. reflexivity.
  - unfold declaration.
    replace (str "{% set " ++ name ++ str " = " ++ dquote :: value
             ++ dquote :: str " %}")
      with ((str "{% set " ++ name ++ str " ") ++ str "="
            ++ (str " " ++ dquote :: value ++ dquote :: str " %}"))
      by (repeat (rewrite <- app_assoc; cbn [app]); reflexivity).
    apply contains_here.
Qed.

Lemma strip_declaration_line :
  strip (declaration name value ++ [newline]) = declaration name value.
Proof.
  unfold strip.
  apply (strip_chars_pad whitespace [] (declaration name value) [newline]);
    try reflexivity.
  rewrite declaration_eq. unfold ends_clear. rewrite !rev_app_distr.
  reflexivity.
Qed.

(** What the chain of [lstrip], [rstrip] and [strip] leaves. *)
Lemma declaration_unwrapped :
  lstrip (lstrip_chars (str "set")
    (strip (rstrip_chars (str "%}")
      (lstrip_chars (str "{%") (declaration name value)))))
  = assignment.
Proof.
  rewrite declaration_eq.
  rewrite lstrip_chars_pad by reflexivity.
  rewrite rstrip_chars_pad;
    [|reflexivity
     |unfold ends_clear; rewrite !rev_app_distr; reflexivity].
  unfold strip. rewrite strip_chars_pad; try reflexivity.
  2:{ replace (str "set" ++ str " " ++ assignment)
        with ((str "set" ++ str " ") ++ assignment)
        by (now rewrite <- app_assoc).
      unfold ends_clear. rewrite rev_app_distr.
      pose proof (assignment_ends whitespace eq_refl) as H.
      unfold ends_clear in H.
      destruct (rev assignment) as [|c r] eqn:E; [|exact H].
      apply (f_equal (@List.length ascii)) in E.
      rewrite length_rev in E. unfold assignment in E.
      rewrite !length_app in E. simpl in E. lia. }
  rewrite lstrip_chars_pad by reflexivity.
  unfold lstrip. apply lstrip_chars_pad; [reflexivity|].
  apply assignment_starts.
Qed.

Lemma split_assignment :
  split (str "=") assignment
  = [name ++ str " "; str " " ++ quoted_value].
Proof.
  unfold assignment.
  replace (name ++ str " = " ++ quoted_value)
    with ((name ++ str " ") ++ "="%char :: (str " " ++ quoted_value))
    by (repeat (rewrite <- app_assoc; cbn [app]); reflexivity).
  change (str "=") with ["="%char]. apply split_char_once.
  - apply not_in_app; [apply name_no_eq|]. simpl. intuition discriminate.
  - unfold quoted_value. simpl.
    intros [E|[E|H]]; try discriminate.
    apply in_app_or in H as [H|[E|[]]]; [|discriminate].
    now apply value_no_eq.
Qed.

Lemma strip_name : strip (name ++ str " ") = name.
Proof.
  unfold strip.
  apply (strip_chars_pad whitespace [] name (str " ")); try reflexivity.
  - apply free_of_starts, name_clear.
  - apply free_of_ends, name_clear.
Qed.

Lemma strip_quoted_value :
  strip_chars [dquote] (strip (str " " ++ quoted_value)) = value.
Proof.
  unfold strip.
  rewrite <- (app_nil_r quoted_value) at 1.
  rewrite (strip_chars_pad whitespace (str " ") quoted_value []);
    try reflexivity.
  2:{ unfold quoted_value.
      change (dquote :: value ++ [dquote])
        with ((dquote :: value) ++ [dquote]).
      now apply ends_clear_snoc. }
  unfold quoted_value.
  apply (strip_chars_pad [dquote] [dquote] value [dquote]);
    try reflexivity.
  - apply free_of_starts.
    apply (free_of_sub _ [dquote] _ Hvalue).
    intros c [<-|[]]. right; now left.
  - apply free_of_ends.
    apply (free_of_sub _ [dquote] _ Hvalue).
    intros c [<-|[]]. right; now left.
Qed.

(** The declaration sets its name to its value. *)
Lemma get_variables_line_declaration (table : dict pystr) :
  get_variables_line table (declaration name value ++ [newline])
  = dict_set name value table.
Proof.
  unfold get_variables_line.
  destruct (declaration name value ++ [newline]) as [|c l] eqn:E.
  { apply (f_equal (@List.length ascii)) in E.
    rewrite length_app in E. simpl in E. lia. }
  rewrite <- E. clear E.
  rewrite strip_declaration_line, declaration_is_declaration.
  rewrite declaration_unwrapped, split_assignment.
  cbn [hd last]. now rewrite strip_name, strip_quoted_value.
Qed.

Lemma declaration_no_newline : ~ In newline (declaration name value).
Proof.
  unfold declaration. intros H.
  apply in_app_or in H as [H|H]; [simpl in H; intuition discriminate|].
  apply in_app_or in H as [H|H].
  { revert H. eapply free_of_not_in; [exact name_clear|].
    right; now left. }
  apply in_app_or in H as [H|H]; [simpl in H; intuition discriminate|].
  destruct H as [E|H]; [discriminate|].
  apply in_app_or in H as [H|H].
  { revert H. eapply free_of_not_in; [exact Hvalue|].
    right; right; now left. }
  simpl in H. intuition discriminate.
Qed.

End Declaration.

(** ** The lines of a recipe *)

Lemma lines_from_line (r s cur : pystr) :
  ~ In newline r ->
  lines_from cur (r ++ newline :: s)
  = (rev cur ++ r ++ [newline]) :: lines_from [] s.
Proof.
  revert cur; induction r as [|c r IH]; intros cur H.
  - cbn [app lines_from]. rewrite Ascii.eqb_refl. reflexivity.
  - cbn [app lines_from].
    assert (E : Ascii.eqb c newline = false).
    { apply Ascii.eqb_neq. intros ->. apply H. now left. }
    rewrite E, IH by (intros Hin; apply H; now right).
    cbn [rev]. now rewrite <- app_assoc.
Qed.

Lemma readlines_lines (rs : list pystr) :
  Forall (fun r => ~ In newline r) rs ->
  readlines (List.concat (map with_newline rs)) = map with_newline rs.
Proof.
  unfold readlines. induction 1 as [|r rs Hr _ IH]; [reflexivity|].
  cbn [map List.concat]. unfold with_newline at 1.
  rewrite <- app_assoc. cbn [app].
  rewrite lines_from_line by assumption. now rewrite IH.
Qed.

Lemma render_source_chomp (l : source_line) :
  render_source l = with_newline (chomp l).
Proof. now destruct l. Qed.

Lemma wf_source_no_newline (l : source_line) :
  wf_source l = true -> ~ In newline (chomp l).
Proof.
  destruct l as [n v|t]; cbn [wf_source chomp]; intros H;
    apply andb_true_iff in H as [H1 H2].
  - now apply declaration_no_newline.
  - eapply free_of_not_in; [exact H1 | now left].
Qed.

Lemma readlines_source (lines : list source_line) :
  forallb wf_source lines = true ->
  readlines (List.concat (map render_source lines))
  = map render_source lines.
Proof.
  intros H.
  rewrite (map_ext render_source (fun l => with_newline (chomp l))
             render_source_chomp).
  rewrite <- (map_map chomp with_newline). apply readlines_lines.
  apply Forall_forall. intros r Hr.
  apply in_map_iff in Hr as [l [<- Hl]].
  apply wf_source_no_newline.
  rewrite forallb_forall in H. now apply H.
Qed.

Lemma render_source_nonempty (l : source_line) : render_source l <> [].
Proof.
  rewrite render_source_chomp. unfold with_newline.
  intros E. apply (f_equal (@List.length ascii)) in E.
  rewrite length_app in E. simpl in E. lia.
Qed.

(** A line of the source sets a variable, or nothing. *)
Lemma get_variables_line_source (table : dict pystr) (l : source_line) :
  wf_source l = true ->
  get_variables_line table (render_source l) = declare table l.
Proof.
  destruct l as [n v|t]; cbn [wf_source render_source declare]; intros H;
    apply andb_true_iff in H as [H1 H2].
  - now apply get_variables_line_declaration.
  - unfold get_variables_line.
    apply negb_true_iff in H2.
    destruct (t ++ [newline]) as [|c l]; [reflexivity|].
    cbv zeta. now rewrite H2.
Qed.

Lemma get_variables_source (lines : list source_line) :
  forallb wf_source lines = true ->
  get_variables (List.concat (map render_source lines)) = declared lines.
Proof.
  intros H. unfold get_variables, declared.
  rewrite readlines_source by assumption.
  generalize (@nil (pystr * pystr)) as table.
  induction lines as [|l lines IH]; intros table; [reflexivity|].
  cbn [forallb] in H. apply andb_true_iff in H as [Hl H].
  cbn [map fold_left]. rewrite get_variables_line_source by assumption.
  now apply IH.
Qed.

(** A declaration gives no line, another line is resolved. *)
Lemma resolve_line_source (variables : dict pystr) (l : source_line) :
  wf_source l = true ->
  resolve_line variables (render_source l)
  = match l with
    | Decl _ _ => []
    | Body text => resolve_line variables (text ++ [newline])
    end.
Proof.
  destruct l as [n v|t]; [|reflexivity].
  cbn [wf_source render_source]. intros H.
  apply andb_true_iff in H as [H1 H2]. unfold resolve_line.
  destruct (declaration n v ++ [newline]) as [|c l] eqn:E; [reflexivity|].
  rewrite <- E. rewrite strip_declaration_line by assumption.
  now rewrite declaration_is_declaration.
Qed.

Lemma resolve_source (variables : dict pystr) (lines : list source_line) :
  forallb wf_source lines = true ->
  resolve variables (List.concat (map render_source lines))
  = join (flat_map (resolve_line variables) (bodies lines)).
Proof.
  intros H. rewrite resolve_eq, readlines_source by assumption. f_equal.
  induction lines as [|l lines IH]; [reflexivity|].
  cbn [forallb] in H. apply andb_true_iff in H as [Hl H].
  cbn [map flat_map bodies]. rewrite resolve_line_source by assumption.
  fold (bodies lines). rewrite (IH H).
  destruct l as [n v|t]; [reflexivity|].
  rewrite flat_map_app. cbn [flat_map]. now rewrite app_nil_r.
Qed.

(** ** The table *)

Lemma declared_from (lines : list source_line) (table : dict pystr) :
  fold_left declare lines table
  = fold_left (fun d kv => dict_set (fst kv) (snd kv) d)
              (declarations lines) table.
Proof.
  revert table; induction lines as [|l lines IH]; intros table;
    [reflexivity|].
  cbn [fold_left declarations flat_map]. fold (declarations lines).
  rewrite fold_left_app, IH. now destruct l.
Qed.

Lemma dict_set_fresh {V} (k : pystr) (v : V) (d : dict V) :
  ~ In k (dict_keys d) -> dict_set k v d = d ++ [(k, v)].
Proof.
  induction d as [|[k' v'] d IH]; cbn [dict_set dict_keys map fst];
    intros H; [reflexivity|].
  assert (E : str_eqb k k' = false).
  { apply str_eqb_neq. intros ->. apply H. now left. }
  rewrite E. cbn [app]. f_equal. apply IH. intros Hin. apply H. now right.
Qed.

(** Distinct names: the table is the list of the declarations. *)
Lemma set_all_nodup (decls table : dict pystr) :
  NoDup (dict_keys (table ++ decls)) ->
  fold_left (fun d kv => dict_set (fst kv) (snd kv) d) decls table
  = table ++ decls.
Proof.
  revert table; induction decls as [|[k v] decls IH]; intros table H.
  - now rewrite app_nil_r.
  - cbn [fold_left fst snd].
    assert (Hk : ~ In k (dict_keys table)).
    { unfold dict_keys in *. rewrite map_app in H. cbn [map fst] in H.
      apply NoDup_remove_2 in H. intros Hin. apply H.
      apply in_or_app. now left. }
    rewrite dict_set_fresh by assumption.
    rewrite IH; rewrite <- app_assoc; [reflexivity | exact H].
Qed.

(** The value of a name is that of its last declaration. *)
Lemma set_all_last (decls1 decls2 table : dict pystr) (k v : pystr) :
  ~ In k (dict_keys decls2) ->
  dict_get k (fold_left (fun d kv => dict_set (fst kv) (snd kv) d)
                        (decls1 ++ (k, v) :: decls2) table)
  = Some v.
Proof.
  intros H. rewrite fold_left_app. cbn [fold_left fst snd].
  generalize (fold_left (fun d kv => dict_set (fst kv) (snd kv) d)
                        decls1 table) as d.
  intros d.
  assert (G : forall d', dict_get k d' = Some v ->
              dict_get k (fold_left
                            (fun d kv => dict_set (fst kv) (snd kv) d)
                            decls2 d') = Some v).
  { induction decls2 as [|[k' v'] decls2 IH]; intros d' Hd'; [assumption|].
    cbn [fold_left fst snd]. apply IH.
    - intros Hin. apply H. now right.
    - rewrite dict_get_set_other; [assumption|].
      intros ->. apply H. now left. }
  apply G. apply dict_get_set_same.
Qed.

(** ** The lines that come out *)

Lemma cleaned_sublist (variables : dict pystr) (lines : list pystr) :
  sublist (cleaned_yaml_lines (yaml_lines variables lines))
          (map (substitute variables) lines).
Proof.
  rewrite cleaned_yaml_lines_eq.
  induction lines as [|l lines IH]; [constructor|].
  cbn [flat_map map]. unfold resolve_line at 1.
  destruct l as [|c l]; [now constructor|].
  destruct (is_declaration _); [now constructor|]. cbv zeta.
  destruct (contains (str "{{") _); now constructor.
Qed.

End DeclarationFacts.

(** * Lines whose references are all declared *)

Module ResolvedFacts.

Import TemplateFacts TokenFacts DeclarationFacts.

Lemma split_sep_cons (sep : pystr) (h : ascii) (a s : pystr) :
  hd_error sep = Some h -> ~ In h a ->
  split sep (a ++ sep ++ s) = a :: split sep s.
Proof.
  intros Hh Ha. unfold split.
  rewrite (@split_from_head_app sep h a [] (sep ++ s) Hh Ha).
  rewrite split_from_sep by (destruct sep; discriminate).
  now rewrite app_nil_r, rev_involutive.
Qed.

(** Three parts or more: the unpacking into two names raises. *)
Lemma unpack2_two_separators (sep : pystr) (h : ascii) (a b c : pystr) :
  hd_error sep = Some h -> ~ In h a -> ~ In h b ->
  unpack2 (split sep (a ++ sep ++ b ++ sep ++ c)) = Raise ValueError.
Proof.
  intros Hh Ha Hb.
  rewrite (@split_sep_cons sep h a (b ++ sep ++ c) Hh Ha).
  rewrite (@split_sep_cons sep h b c Hh Hb).
  destruct (split sep c) eqn:E; [|reflexivity].
  now apply FlatFacts.split_nonempty in E.
Qed.

(** Text alone holds no brace. *)
Lemma render_refs_text (rs : list ref) :
  forallb proper_ref rs = true ->
  forallb (fun r => match r with Text _ => true | _ => false end) rs
  = true ->
  ~ In "{"%char (render_refs rs).
Proof.
  unfold render_refs. induction rs as [|r rs IH]; [intros _ _ []|].
  cbn [forallb map]. intros Hp Ht.
  apply andb_true_iff in Hp as [Hr Hp].
  apply andb_true_iff in Ht as [Hrt Ht].
  rewrite render_cons. apply not_in_app; [|now apply IH].
  destruct r as [t|n|n]; try discriminate. cbn [to_piece render_piece].
  eapply lacks_In; [exact Hr | now left].
Qed.

Lemma render_refs_app (rs1 rs2 : list ref) :
  render_refs (rs1 ++ rs2) = render_refs rs1 ++ render_refs rs2.
Proof. unfold render_refs. now rewrite map_app, render_app. Qed.

Lemma render_refs_newline (rs : list ref) :
  render_refs (rs ++ [Text [newline]]) = render_refs rs ++ [newline].
Proof. rewrite render_refs_app. reflexivity. Qed.

Lemma resolve_ref_proper (variables : dict pystr) (r : ref) :
  forallb proper_var variables = true -> proper_ref r = true ->
  proper_ref (resolve_ref variables r) = true.
Proof.
  intros Hv Hr.
  assert (G : forall n v, dict_get n variables = Some v ->
                          lacks "{|" v = true).
  { clear Hr. induction variables as [|[k v'] vars IH]; intros n v H;
      [discriminate|].
    cbn [forallb] in Hv. apply andb_true_iff in Hv as [Hkv Hv].
    cbn [dict_get] in H. destruct (str_eqb n k).
    - inversion H; subst. unfold proper_var in Hkv.
      now apply andb_true_iff in Hkv as [_ Hkv].
    - now apply (IH Hv n). }
  destruct r as [t|n|n]; cbn [resolve_ref]; [assumption| |].
  - destruct (dict_get n variables) as [v|] eqn:E; [|assumption].
    cbn [proper_ref]. now apply (G n).
  - destruct (dict_get n variables) as [v|] eqn:E; [|assumption].
    cbn [proper_ref]. rewrite lower_lacks; [now apply (G n)|].
    simpl. intros x [<-|[<-|[]]]; [now left | right; now left].
Qed.

Lemma substitute_one_form (variables : dict pystr) (rs : list ref) :
  forallb proper_var variables = true ->
  forallb proper_ref rs = true ->
  existsb is_lower rs = false \/ existsb is_plain rs = false ->
  substitute variables (render_refs rs)
  = render_refs (map (resolve_ref variables) rs).
Proof.
  intros Hv Hp H. rewrite substitute_render_refs by assumption.
  f_equal. destruct H as [H|H].
  - now apply substitute_refs_plain.
  - now apply substitute_refs_lower.
Qed.

End ResolvedFacts.

(** * Further properties of the module *)

Import TokenFacts LoopFacts FlatFacts RootFacts DeclarationFacts.

(** ** The requirements of a recipe *)

(** X1: a token written [namespace::name=version requirement] is read
    back part by part.  With [=version] the requirement is [=version],
    whatever follows the space; without it the version is unset and the
    requirement is the text after the first space.  The parts hold no
    space, [=] or [:], and the requirement does not start with [==]. *)
Theorem X1_token_grammar_read_back
    (namespace : option pystr) (name : pystr)
    (pin requirement : option pystr) :
  match namespace with Some ns => lacks " =:" ns | None => true end = true ->
  lacks " =:" name = true ->
  match pin with Some v => lacks " =:" v | None => true end = true ->
  match requirement with
  | Some r => negb (startswith (str "==") r)
  | None => true
  end = true ->
  parse_requirement (token namespace name pin requirement)
  = Ok (mkReq name namespace pin
              (match pin with Some _ => true | None => false end)
              (match pin with
               | Some v => str "=" ++ v
               | None => match requirement with Some r => r | None => [] end
               end)).
Proof. apply parse_requirement_token. Qed.

Lemma X1_token_grammar_read_back_witness :
  parse_requirement (str "bioconda::samtools=1.9 >=1.0")
  = Ok (mkReq (str "samtools") (Some (str "bioconda")) (Some (str "1.9"))
              true (str "=1.9"))
  /\ parse_requirement (str "pandas >=1.0")
     = Ok (mkReq (str "pandas") None None false (str ">=1.0")).
Proof.
  split.
  - apply (X1_token_grammar_read_back (Some (str "bioconda"))
             (str "samtools") (Some (str "1.9")) (Some (str ">=1.0")));
      reflexivity.
  - apply (X1_token_grammar_read_back None (str "pandas") None
             (Some (str ">=1.0"))); reflexivity.
Defined.

(** X2: every record of the scoped requirements is of type [conda] and
    direct; it is a runtime record exactly when the name of its scope
    contains [run], optional otherwise; and its scope is one of the
    scopes of the requirements. *)
Theorem X2_scoped_records_classified
    (requirements : dict (list pystr)) (st : state) :
  parse requirements = Ok st ->
  Forall classified (fst st)
  /\ Forall (fun d => In (scope d) (dict_keys requirements)) (fst st).
Proof.
  intros H. split.
  - eapply parse_classified; exact H.
  - eapply parse_scope_keys; exact H.
Qed.

Lemma X2_scoped_records_classified_witness :
  exists st,
    parse [(str "build", [str "cmake"]);
           (str "run_constrained", [str "numpy >=1.0"])] = Ok st
    /\ Forall classified (fst st)
    /\ Forall (fun d => In (scope d) [str "build"; str "run_constrained"])
              (fst st)
    /\ map is_runtime (fst st) = [false; true].
Proof.
  eexists. split; [reflexivity|].
  destruct (@X2_scoped_records_classified
              [(str "build", [str "cmake"]);
               (str "run_constrained", [str "numpy >=1.0"])] _ eq_refl)
    as [H1 H2].
  split; [exact H1|]. split; [exact H2 | reflexivity].
Defined.

(** X3: every token of the requirements is filed once, as a record or
    in [extra_data]; and [extra_data] holds only tokens whose parsed name
    is [pip] or [python]. *)
Theorem X3_every_token_filed_once
    (requirements : dict (list pystr)) (st : state) :
  parse requirements = Ok st ->
  List.length (fst st) + token_count (snd st) = token_count requirements
  /\ extra_reserved (snd st).
Proof.
  intros H. split.
  - pose proof (@parse_scopes_count requirements ([], []) st H) as E.
    rewrite E. unfold token_count. simpl. lia.
  - apply (@parse_scopes_extra requirements ([], []) st H).
    intros sc reqs Hget. discriminate Hget.
Qed.

Lemma X3_every_token_filed_once_witness :
  exists st,
    parse [(str "host", [str "python"; str "pip"; str "setuptools"]);
           (str "run", [str "python >=3.6"; str "numpy"])] = Ok st
    /\ List.length (fst st) + token_count (snd st) = 5
    /\ extra_reserved (snd st).
Proof.
  eexists. split; [reflexivity|].
  apply (@X3_every_token_filed_once
           [(str "host", [str "python"; str "pip"; str "setuptools"]);
            (str "run", [str "python >=3.6"; str "numpy"])] _ eq_refl).
Defined.

(** X4: scopes are handled one after the other: the records of the
    first scopes are those the first scopes give alone, and the later
    scopes only add records after them. *)
Theorem X4_scoped_records_only_added
    (r1 r2 : dict (list pystr)) (st : state) :
  parse (r1 ++ r2) = Ok st ->
  exists st1 new,
    parse r1 = Ok st1
    /\ parse_scopes st1 r2 = Ok st
    /\ fst st = fst st1 ++ new.
Proof.
  unfold parse. rewrite parse_scopes_app. intros H.
  apply bind_ok in H as [st1 [E1 E2]].
  destruct (@parse_scopes_grows r2 st1 st E2) as [new Hnew].
  now exists st1, new.
Qed.

Lemma X4_scoped_records_only_added_witness :
  exists st st1 new,
    parse ([(str "build", [str "cmake"])] ++ [(str "run", [str "numpy"])])
    = Ok st
    /\ parse [(str "build", [str "cmake"])] = Ok st1
    /\ parse_scopes st1 [(str "run", [str "numpy"])] = Ok st
    /\ fst st = fst st1 ++ new.
Proof.
  eexists.
  destruct (@X4_scoped_records_only_added
              [(str "build", [str "cmake"])] [(str "run", [str "numpy"])]
              _ eq_refl) as [st1 [new [H1 [H2 H3]]]].
  exists st1, new. split; [reflexivity|]. repeat split; assumption.
Defined.

(** X5: a token with a build string, [name=version=build], makes the
    unpacking of its name part raise [ValueError], and with it the whole
    of the requirements: no record is returned. *)
Theorem X5_build_string_token_raises
    (requirements : dict (list pystr)) (sc : pystr) (reqs : list pystr)
    (n v b : pystr) :
  let req := n ++ "="%char :: v ++ "="%char :: b in
  ~ In " "%char req ->
  contains (str "::") req = false ->
  ~ In "="%char n -> ~ In "="%char v ->
  In (sc, reqs) requirements -> In req reqs ->
  parse_requirement req = Raise ValueError
  /\ parse requirements = Raise ValueError.
Proof.
  intros req Hsp Hns Hn Hv Hin Hreq.
  assert (R : parse_requirement req = Raise ValueError).
  { rewrite parse_requirement_eq.
    change (str " ") with [" "%char].
    rewrite partition_char_none by assumption.
    unfold eq_version, split_namespace.
    change (startswith (str "==") []) with false.
    rewrite Hns. cbn [bind].
    assert (C : contains (str "=") req = true)
      by apply (contains_here (str "=") n (v ++ "="%char :: b)).
    rewrite C. subst req. now rewrite unpack2_build_string. }
  split; [exact R|].
  unfold parse. eapply parse_scopes_fails; eassumption.
Qed.

Lemma X5_build_string_token_raises_witness :
  parse_requirement (str "numpy=1.15.4=py36_0") = Raise ValueError
  /\ parse [(str "build", [str "cmake"]);
            (str "run", [str "python"; str "numpy=1.15.4=py36_0"])]
     = Raise ValueError.
Proof.
  apply (@X5_build_string_token_raises
           [(str "build", [str "cmake"]);
            (str "run", [str "python"; str "numpy=1.15.4=py36_0"])]
           (str "run") [str "python"; str "numpy=1.15.4=py36_0"]
           (str "numpy") (str "1.15.4") (str "py36_0")).
  - apply contains_char_false. reflexivity.
  - reflexivity.
  - apply contains_char_false. reflexivity.
  - apply contains_char_false. reflexivity.
  - right; now left.
  - right; now left.
Defined.

(** X6: the requirements raise nothing but [ValueError], and they raise
    it as soon as one token does, wherever it stands. *)
Theorem X6_one_raising_token_aborts
    (requirements : dict (list pystr)) :
  (forall e, parse requirements = Raise e -> e = ValueError)
  /\ (forall sc reqs req e,
         In (sc, reqs) requirements -> In req reqs ->
         parse_requirement req = Raise e ->
         parse requirements = Raise ValueError).
Proof.
  split.
  - intros e. unfold parse.
    generalize (@nil DependentPackage, @nil (pystr * list pystr)).
    induction requirements as [|[sc reqs] rest IH]; intros st H;
      [discriminate|].
    cbn [parse_scopes] in H. apply bind_raise in H as [H|[st1 [_ H]]].
    + now apply parse_reqs_raise in H.
    + now apply IH in H.
  - intros sc reqs req e Hin Hreq He. unfold parse.
    eapply parse_scopes_fails; eassumption.
Qed.

Lemma X6_one_raising_token_aborts_witness :
  parse [(str "host", [str "a::b::c"]); (str "run", [str "numpy"])]
  = Raise ValueError.
Proof.
  apply (proj2 (X6_one_raising_token_aborts
                  [(str "host", [str "a::b::c"]);
                   (str "run", [str "numpy"])])
           (str "host") [str "a::b::c"] (str "a::b::c") ValueError).
  - now left.
  - now left.
  - reflexivity.
Defined.

(** X7: two namespace separators in the name part make the unpacking of
    [split] raise [ValueError], in the scoped requirements and, whatever
    the requirement parser, in the flat list. *)
Theorem X7_two_namespace_separators_raise
    (parse_requirement_line : pystr -> option (pystr * pystr))
    (a b c : pystr) (st : flat_state) :
  let req := a ++ str "::" ++ b ++ str "::" ++ c in
  ~ In ":"%char a -> ~ In ":"%char b -> ~ In " "%char req ->
  parse_requirement req = Raise ValueError
  /\ parse_str_dep parse_requirement_line st req = Raise ValueError.
Proof.
  intros req Ha Hb Hsp.
  assert (C : contains (str "::") req = true) by apply contains_here.
  assert (U : unpack2 (split (str "::") req) = Raise ValueError)
    by now apply (@ResolvedFacts.unpack2_two_separators
                    (str "::") ":"%char a b c eq_refl).
  split.
  - rewrite parse_requirement_eq. change (str " ") with [" "%char].
    rewrite partition_char_none by assumption.
    unfold eq_version, split_namespace.
    change (startswith (str "==") []) with false.
    cbn [bind]. now rewrite C, U.
  - destruct st as [version deps]. unfold parse_str_dep.
    now rewrite C, U.
Qed.

Lemma X7_two_namespace_separators_raise_witness :
  parse_requirement (str "conda-forge::linux-64::numpy") = Raise ValueError
  /\ parse_str_dep sample_requirement_line (Unbound, [])
       (str "conda-forge::linux-64::numpy") = Raise ValueError.
Proof.
  apply (@X7_two_namespace_separators_raise sample_requirement_line
           (str "conda-forge") (str "linux-64") (str "numpy") (Unbound, []));
    apply contains_char_false; reflexivity.
Defined.

(** ** The flat list of an environment *)

(** X8: every record of the flat list has the scope [dependencies], is a
    runtime record, not optional, and direct; it is of type [pypi],
    without namespace, or of type [conda], and then its namespace, if it
    has one, holds no [/] and no [:]. *)
Theorem X8_flat_records_classified
    (parse_requirement_line : pystr -> option (pystr * pystr))
    (dependencies : list dependency) (deps : list DependentPackage) :
  get_conda_yaml_dependencies parse_requirement_line dependencies = Ok deps ->
  Forall flat_classified deps.
Proof.
  unfold get_conda_yaml_dependencies. intros H.
  apply bind_ok in H as [[v out] [E H]]. inversion H; subst.
  change deps with (snd (v, deps)).
  eapply parse_deps_classified; [exact E | constructor].
Qed.

Lemma X8_flat_records_classified_witness :
  exists deps,
    get_conda_yaml_dependencies sample_requirement_line
      [DepStr (str "conda-forge::numpy=1.15");
       DepStr (str "https://repo.example.org/main::zlib=1.2");
       DepDict [(str "pip", [str "requests==2.0"])]]
    = Ok deps
    /\ Forall flat_classified deps
    /\ map (fun d => purl_namespace (purl d)) deps
       = [Some (str "conda-forge"); None; None].
Proof.
  eexists. split; [reflexivity|]. split; [|reflexivity].
  apply (@X8_flat_records_classified sample_requirement_line
           [DepStr (str "conda-forge::numpy=1.15");
            DepStr (str "https://repo.example.org/main::zlib=1.2");
            DepDict [(str "pip", [str "requests==2.0"])]]).
  reflexivity.
Defined.

(** X9: an entry [name=version=build], as [conda env export] writes
    them, that the requirement parser does not accept, raises
    [ValueError] when its turn comes; the list that holds it gives no
    result. *)
Theorem X9_flat_build_string_raises
    (parse_requirement_line : pystr -> option (pystr * pystr))
    (xs ys : list dependency) (n v b : pystr) :
  let dep := n ++ "="%char :: v ++ "="%char :: b in
  ~ In "="%char n -> ~ In "="%char v ->
  contains (str "::") dep = false ->
  parse_requirement_line dep = None ->
  (forall st, parse_str_dep parse_requirement_line st dep = Raise ValueError)
  /\ exists e,
       get_conda_yaml_dependencies parse_requirement_line
         (xs ++ DepStr dep :: ys) = Raise e.
Proof.
  intros dep Hn Hv Hns Hreq.
  assert (R : forall st,
             parse_str_dep parse_requirement_line st dep = Raise ValueError).
  { intros st. now apply parse_str_dep_build_string. }
  split; [exact R|].
  unfold get_conda_yaml_dependencies.
  destruct (@parse_deps_abort parse_requirement_line xs ys (DepStr dep)
              (Unbound, [])) as [e He].
  - intros st1. exists ValueError. apply R.
  - exists e. now rewrite He.
Qed.

Lemma X9_flat_build_string_raises_witness :
  (forall st, parse_str_dep sample_requirement_line st
                (str "numpy=1.15.4=py36_0") = Raise ValueError)
  /\ exists e,
       get_conda_yaml_dependencies sample_requirement_line
         ([DepStr (str "scipy")] ++ DepStr (str "numpy=1.15.4=py36_0")
          :: [DepStr (str "zlib")]) = Raise e.
Proof.
  apply (@X9_flat_build_string_raises sample_requirement_line
           [DepStr (str "scipy")] [DepStr (str "zlib")]
           (str "numpy") (str "1.15.4") (str "py36_0"));
    try reflexivity; apply contains_char_false; reflexivity.
Defined.

(** X10: in the flat list, an entry without [=] and [::] that the
    requirement parser does not accept gives a [conda] record named by
    the whole entry, unpinned, without requirement, and with the version
    the local variable [version] holds from the entries before it. *)
Theorem X10_flat_token_takes_earlier_version
    (parse_requirement_line : pystr -> option (pystr * pystr))
    (version : option pystr) (deps : list DependentPackage) (dep : pystr) :
  parse_requirement_line dep = None ->
  ~ In "="%char dep ->
  contains (str "::") dep = false ->
  is_reserved dep = false ->
  parse_str_dep parse_requirement_line (Bound version, deps) dep
  = Ok (Bound version,
        deps ++ [flat_dependency (mkPurl (str "conda") None dep version)
                                 None false]).
Proof.
  intros Hreq Heq Hns Hr. unfold parse_str_dep.
  rewrite Hns. cbn [bind]. rewrite Hreq.
  apply contains_char_false in Heq.
  change (str "=") with ["="%char]. rewrite Heq.
  cbn [bind read_local purl_name]. now rewrite Hr.
Qed.

Lemma X10_flat_token_takes_earlier_version_witness :
  parse_str_dep sample_requirement_line (Bound (Some (str "1.15")), [])
                (str "libfoo 2")
  = Ok (Bound (Some (str "1.15")),
        [] ++ [flat_dependency
                 (mkPurl (str "conda") None (str "libfoo 2")
                         (Some (str "1.15")))
                 None false]).
Proof.
  apply X10_flat_token_takes_earlier_version; try reflexivity.
  apply contains_char_false. reflexivity.
Defined.

(** X11: an environment without a name whose entries are all requirement
    lines named [pip] or [python] gives no package. *)
Theorem X11_environment_of_reserved_entries_gives_no_package
    (parse_requirement_line : pystr -> option (pystr * pystr))
    (name : option pystr) (channels : option (list pystr))
    (dependencies : list dependency) :
  CondaYamlHandler.truthy name = false ->
  Forall (reserved_entry parse_requirement_line) dependencies ->
  CondaYamlHandler.parse parse_requirement_line
    (CondaYamlHandler.mkCondaData name channels (Some dependencies))
  = Ok [].
Proof.
  intros Hname Hdeps. unfold CondaYamlHandler.parse.
  cbn [CondaYamlHandler.cd_dependencies CondaYamlHandler.cd_name
       CondaYamlHandler.cd_channels].
  unfold get_conda_yaml_dependencies.
  destruct (@parse_deps_reserved parse_requirement_line dependencies Hdeps
              (Unbound, [])) as [v E].
  rewrite E. cbn [bind snd]. now rewrite Hname.
Qed.

Lemma X11_environment_of_reserved_entries_gives_no_package_witness :
  CondaYamlHandler.parse sample_requirement_line
    (CondaYamlHandler.mkCondaData None (Some [str "conda-forge"])
       (Some [DepStr (str "python >=3.6"); DepStr (str "pip")]))
  = Ok [].
Proof.
  apply X11_environment_of_reserved_entries_gives_no_package.
  - reflexivity.
  - repeat constructor.
    + exists (str "python"), (str ">=3.6"). now split.
    + exists (str "pip"), []. now split.
Defined.

(** ** The root of a recipe *)

(** X12: the root of a [meta.yaml] is an ancestor of the resource: four
    levels up when the path ends with one of the two [info/...] patterns,
    two levels up when it ends with [conda.recipe/meta.yaml], which
    excludes the other two, and the parent otherwise; it is [None] when
    the tree is not that deep. *)
Theorem X12_conda_root_is_an_ancestor
    (Resource : Type) (path : Resource -> pystr)
    (parent : Resource -> option Resource) (resource : Resource) :
  let ends (pth : string) := endswith (str pth) (path resource) in
  (ends "info/recipe.tar-extract/recipe/meta.yaml"%string = true
   \/ ends "info/recipe/recipe/meta.yaml"%string = true ->
   get_conda_root path parent resource = iter_parent parent 4 resource)
  /\ (ends "conda.recipe/meta.yaml"%string = true ->
      get_conda_root path parent resource = iter_parent parent 2 resource)
  /\ (ends "info/recipe.tar-extract/recipe/meta.yaml"%string = false ->
      ends "info/recipe/recipe/meta.yaml"%string = false ->
      ends "conda.recipe/meta.yaml"%string = false ->
      get_conda_root path parent resource = parent resource).
Proof.
  intros ends. unfold get_conda_root, root_paths. cbn [conda_root_from].
  fold (ends "info/recipe.tar-extract/recipe/meta.yaml"%string).
  fold (ends "info/recipe/recipe/meta.yaml"%string).
  fold (ends "conda.recipe/meta.yaml"%string).
  split; [|split].
  - intros [H|H].
    + rewrite H. cbn [negb]. now rewrite climb_iter.
    + rewrite H.
      destruct (ends "info/recipe.tar-extract/recipe/meta.yaml"%string);
        cbn [negb]; now rewrite climb_iter.
  - intros H.
    destruct (endswith_recipe_exclusive (path resource) H) as [H1 H2].
    fold (ends "info/recipe.tar-extract/recipe/meta.yaml"%string) in H1.
    fold (ends "info/recipe/recipe/meta.yaml"%string) in H2.
    rewrite H1, H2, H. cbn [negb]. now rewrite climb_iter.
  - intros H1 H2 H3. now rewrite H1, H2, H3.
Qed.

Lemma X12_conda_root_is_an_ancestor_witness :
  let path (r : list pystr) :=
    List.concat (map (fun seg => "/"%char :: seg) (rev r)) in
  let parent (r : list pystr) :=
    match r with [] => None | _ :: up => Some up end in
  get_conda_root path parent
    [str "meta.yaml"; str "conda.recipe"; str "project"; str "src"]
  = Some [str "project"; str "src"]
  /\ get_conda_root path parent [str "meta.yaml"; str "conda.recipe"]
     = Some []
  /\ get_conda_root path parent [str "meta.yaml"] = Some [].
Proof.
  intros path parent. split; [|split].
  - apply (proj1 (proj2 (X12_conda_root_is_an_ancestor path parent
             [str "meta.yaml"; str "conda.recipe"; str "project";
              str "src"]))).
    reflexivity.
  - apply (proj1 (proj2 (X12_conda_root_is_an_ancestor path parent
             [str "meta.yaml"; str "conda.recipe"]))).
    reflexivity.
  - apply (proj2 (proj2 (X12_conda_root_is_an_ancestor path parent
             [str "meta.yaml"]))); reflexivity.
Defined.

(** ** The variables of a recipe *)







(** ** The resolution of a recipe *)







(** X19: the lines that come out are, in the order of the text, lines
    of the text after substitution, some left out: no line is moved or
    added. *)
Theorem X19_output_lines_in_source_order
    (variables : dict pystr) (text : pystr) :
  sublist (cleaned_yaml_lines (yaml_lines variables (readlines text)))
          (map (substitute variables) (readlines text)).
Proof. apply cleaned_sublist. Qed.
